(** * learndb-py backend: session registry, submission grading, progression

    A shallow embedding of [backend/core/learndb_adapter.py],
    [backend/core/session_manager.py], [backend/models/challenge.py],
    [backend/core/challenge_engine.py] and the submit route of
    [backend/api/routes/challenges.py], followed by the properties of the
    specification that concern them.

    Conventions of the embedding.
    - Python [int] is [Z]; [str] is [string]; [float] is an IEEE binary64
      value ([spec_float] at precision 53, maximal exponent 1024); a [dict]
      whose iteration order matters is an association list in insertion
      order, a [dict] that is only looked up is a [gmap].
    - The builtins whose text output or Unicode tables are not part of the
      sources ([str.lower], the printing of a dict or a set) are an
      interface, [PyBuiltins]; the engine behind the adapter is another,
      [LearnDB]. Every property holds for all their implementations.
    - Objects that Python mutates in place are threaded explicitly: an
      operation returns the new state next to its result.
    - [datetime.utcnow()] is an input ([now], [today]); one call of an
      operation sees one reading of the clock. [uuid.uuid4()] is an input of
      [create_session].
    - The registry lock and the session directories on disk are not
      modelled: operations are taken one at a time. *)

From Stdlib Require Import ZArith List String Ascii Bool Lia SpecFloat DecimalString.
From stdpp Require Import base option list gmap strings.

Local Open Scope Z_scope.

(* ===================================================================== *)
(** * Python values and builtins *)
(* ===================================================================== *)

Module Py.

(** The scalar values a result row or an expected row holds. *)
Inductive value : Type :=
| VNone
| VBool (b : bool)
| VInt (n : Z)
| VFloat (f : spec_float)
| VStr (s : string).

(** A row: a [Dict[str, Any]], in insertion order. *)
Definition Row : Type := list (string * value).

(** Builtins taken as given: [s.lower()], and the text an f-string prints
    for a row ([dict]) and for a set of names. *)
Class PyBuiltins : Type := {
  lower : string -> string;
  repr_row : Row -> string;
  repr_set : gset string -> string
}.

(** [str(n)] for an int *)
Definition str_int (n : Z) : string := NilZero.string_of_int (Z.to_int n).

(** [len(l)] *)
Definition len {A} (l : list A) : Z := Z.of_nat (length l).

(** [l[start:]] for a list: a negative [start] counts from the end, and
    both ends are clamped. So [l[-0:]] is [l[0:]], the whole list. *)
Definition slice_from {A} (start : Z) (l : list A) : list A :=
  let n := len l in
  let i := if start <? 0 then Z.max 0 (n + start) else Z.min start n in
  drop (Z.to_nat i) l.

(** binary64 *)
Definition prec : Z := 53.
Definition emax : Z := 1024.
Definition fsub : spec_float -> spec_float -> spec_float := SFsub prec emax.

(** The float literal [0.0001]: 7378697629483821 * 2^-66. *)
Definition tolerance : spec_float := S754_finite false 7378697629483821 (-66).

(** The float literal [0.0] *)
Definition fzero : spec_float := S754_zero false.

Definition int_of_bool (b : bool) : Z := if b then 1 else 0.

(** The integer a value denotes, for [bool] and [int]. *)
Definition as_int (v : value) : option Z :=
  match v with
  | VBool b => Some (int_of_bool b)
  | VInt n => Some n
  | _ => None
  end.

(** [f == n] for a float and an int: Python compares the exact values. *)
Definition float_eq_int (f : spec_float) (n : Z) : bool :=
  match f with
  | S754_zero _ => n =? 0
  | S754_finite s m e =>
      let v := cond_Zopp s (Zpos m) in
      if 0 <=? e then n =? v * 2 ^ e else n * 2 ^ (- e) =? v
  | _ => false
  end.

(** [x == y] on scalars: [None] equals only itself, strings equal only
    strings, and [bool], [int] and [float] compare by numeric value. *)
Definition py_eq (x y : value) : bool :=
  match x, y with
  | VNone, VNone => true
  | VStr a, VStr b => String.eqb a b
  | VFloat f, VFloat g => SFeqb f g
  | VFloat f, _ => match as_int y with Some n => float_eq_int f n | None => false end
  | _, VFloat g => match as_int x with Some n => float_eq_int g n | None => false end
  | _, _ => match as_int x, as_int y with Some a, Some b => a =? b | _, _ => false end
  end.

(** [x != y] *)
Definition py_ne (x y : value) : bool := negb (py_eq x y).

End Py.

Export Py.

(* ===================================================================== *)
(** * backend/core/learndb_adapter.py *)
(* ===================================================================== *)

Module learndb_adapter.

(** [QueryResult] *)
Record QueryResult : Type := mkQueryResult {
  success : bool;
  rows : list Row;
  columns : list string;
  row_count : Z;
  error_message : option string;
  execution_time_ms : spec_float
}.

(** The dataclass defaults: [QueryResult(success=False, error_message=msg)]. *)
Definition failed_result (msg : option string) (elapsed : spec_float) : QueryResult :=
  mkQueryResult false [] [] 0 msg elapsed.

(** [learndb.dataexchange.Response], as far as the adapter reads it. *)
Record Response : Type := mkResponse {
  resp_success : bool;
  resp_error_message : option string
}.

(** What [pipe.read()] hands back: a record with [to_dict], a record with
    [values], or anything else, which the adapter prints with [str]. *)
Inductive PipeMsg : Type :=
| HasToDict (d : Row)
| HasValues (d : Row)
| Printable (text : string).

(** The engine proper ([learndb.interface.LearnDB]) is outside the
    sources; the adapter sees it through this interface. [DB] is the state
    of one database instance, pipe included. [handle_input] answers with a
    response, and [read_pipe] drains the pipe; either gives [inl msg] when
    an exception is raised ([msg] is [str(e)]). [elapsed_ms] is the
    wall-clock time the adapter measures around the call. *)
Class LearnDB : Type := {
  DB : Type;
  open_db : string -> bool -> DB;
  handle_input : DB -> string -> DB * (string + Response);
  read_pipe : DB -> DB * (string + list PipeMsg);
  nuke_dbfile : DB -> DB;
  elapsed_ms : DB -> string -> spec_float
}.

Section Adapter.
Context `{LearnDB}.

(** [LearnDBAdapter] *)
Record LearnDBAdapter : Type := mkAdapter {
  db_filepath : string;
  _db : DB
}.

(** [LearnDBAdapter(db_filepath, nuke_db_file)] *)
Definition new_adapter (path : string) (nuke_db_file : bool) : LearnDBAdapter :=
  mkAdapter path (open_db path nuke_db_file).

(** The conversion of one pipe record to a row dictionary. *)
Definition row_dict_of (record : PipeMsg) : Row :=
  match record with
  | HasToDict d => d
  | HasValues d => d
  | Printable text => [("result"%string, VStr text)]
  end.

(** The [while pipe.has_msgs()] loop: rows in pipe order, columns from the
    first row that is not empty. *)
Fixpoint collect (pipe : list PipeMsg) (rows : list Row) (columns : list string)
  : list Row * list string :=
  match pipe with
  | [] => (rows, columns)
  | record :: pipe' =>
      let row_dict := row_dict_of record in
      let columns :=
        match columns, row_dict with
        | [], _ :: _ => map fst row_dict
        | _, _ => columns
        end in
      collect pipe' (rows ++ [row_dict]) columns
  end.

(** [LearnDBAdapter.execute_query] *)
Definition adapter_execute_query (a : LearnDBAdapter) (sql : string)
  : LearnDBAdapter * QueryResult :=
  let execution_time := elapsed_ms (_db a) sql in
  match handle_input (_db a) sql with
  | (db1, inl e) =>
      (mkAdapter (db_filepath a) db1, failed_result (Some e) execution_time)
  | (db1, inr response) =>
      if negb (resp_success response) then
        (mkAdapter (db_filepath a) db1,
         failed_result (resp_error_message response) execution_time)
      else
        match read_pipe db1 with
        | (db2, inl e) =>
            (mkAdapter (db_filepath a) db2, failed_result (Some e) execution_time)
        | (db2, inr pipe) =>
            let '(rows, columns) := collect pipe [] [] in
            (mkAdapter (db_filepath a) db2,
             mkQueryResult true rows columns (len rows) None execution_time)
        end
  end.

(** [LearnDBAdapter.reset] *)
Definition adapter_reset (a : LearnDBAdapter) : LearnDBAdapter :=
  mkAdapter (db_filepath a) (nuke_dbfile (_db a)).

End Adapter.

End learndb_adapter.

Export learndb_adapter.

(* ===================================================================== *)
(** * backend/core/session_manager.py *)
(* ===================================================================== *)

Module session_manager.

(** [QueryHistoryItem] *)
Record QueryHistoryItem : Type := mkHistoryItem {
  hi_sql : string;
  hi_timestamp : string;
  hi_success : bool;
  hi_execution_time_ms : spec_float;
  hi_row_count : Z;
  hi_error_message : option string
}.

Section Manager.
Context `{LearnDB}.

(** [Session] *)
Record Session : Type := mkSession {
  session_id : string;
  db_path : string;
  created_at : string;
  last_activity_at : string;
  is_active : bool;
  current_mode : string;
  current_challenge_id : option string;
  current_tutorial_id : option string;
  query_history : list QueryHistoryItem;
  _adapter : option LearnDBAdapter
}.

(** [SessionManager] *)
Record SessionManager : Type := mkManager {
  sessions_dir : string;
  max_session_age_hours : Z;
  max_history_items : Z;
  _sessions : gmap string Session
}.

(** [SessionManager(sessions_dir, max_session_age_hours, max_history_items)] *)
Definition new_manager (dir : string) (age items : Z) : SessionManager :=
  mkManager dir age items ∅.

Definition with_sessions (m : SessionManager) (ss : gmap string Session) : SessionManager :=
  mkManager (sessions_dir m) (max_session_age_hours m) (max_history_items m) ss.

Definition stamp (s : Session) (now : string) (a : LearnDBAdapter) : Session :=
  mkSession (session_id s) (db_path s) (created_at s) now (is_active s)
    (current_mode s) (current_challenge_id s) (current_tutorial_id s)
    (query_history s) (Some a).

Definition with_history (s : Session) (h : list QueryHistoryItem) (a : LearnDBAdapter) : Session :=
  mkSession (session_id s) (db_path s) (created_at s) (last_activity_at s) (is_active s)
    (current_mode s) (current_challenge_id s) (current_tutorial_id s)
    h (Some a).

(** [create_session]: [sid] is the fresh uuid; the path is
    [sessions_dir / sid / "db.file"], for a directory name that does not
    end in a slash. *)
Definition create_session (m : SessionManager) (sid now : string)
  : SessionManager * Session :=
  let db_path := (sessions_dir m +:+ "/" +:+ sid +:+ "/db.file")%string in
  let session :=
    mkSession sid db_path now now true "sandbox" None None []
      (Some (new_adapter db_path true)) in
  (with_sessions m (<[sid := session]> (_sessions m)), session).

(** [get_session]: only a present, active session is returned; it is
    stamped, and an adapter is attached when there is none. The session
    object is shared with the registry, so the stamp is stored there. *)
Definition get_session (m : SessionManager) (sid now : string)
  : SessionManager * option Session :=
  match _sessions m !! sid with
  | Some session =>
      if is_active session then
        let a := match _adapter session with
                 | Some a => a
                 | None => new_adapter (db_path session) false
                 end in
        let session := stamp session now a in
        (with_sessions m (<[sid := session]> (_sessions m)), Some session)
      else (m, None)
  | None => (m, None)
  end.

Definition not_found (sid : string) : QueryResult :=
  failed_result (Some ("Session '" +:+ sid +:+ "' not found")%string) fzero.

(** The adapter of a session that [get_session] returned. *)
Definition adapter_of (s : Session) : LearnDBAdapter :=
  match _adapter s with
  | Some a => a
  | None => new_adapter (db_path s) false
  end.

(** The trim at the end of [execute_query]: a history longer than the
    cap is replaced by [history[-cap:]]. *)
Definition trimmed (cap : Z) (history : list QueryHistoryItem) : list QueryHistoryItem :=
  if cap <? len history then slice_from (- cap) history else history.

(** [execute_query] *)
Definition execute_query (m : SessionManager) (sid sql now : string)
  : SessionManager * QueryResult :=
  match get_session m sid now with
  | (m, None) => (m, not_found sid)
  | (m, Some session) =>
      let '(a, result) := adapter_execute_query (adapter_of session) sql in
      let history_item :=
        mkHistoryItem sql now (success result) (execution_time_ms result)
          (row_count result) (error_message result) in
      let history := query_history session ++ [history_item] in
      let history := trimmed (max_history_items m) history in
      (with_sessions m (<[sid := with_history session history a]> (_sessions m)), result)
  end.

(** [reset_session] *)
Definition reset_session (m : SessionManager) (sid now : string)
  : SessionManager * bool :=
  match get_session m sid now with
  | (m, None) => (m, false)
  | (m, Some session) =>
      let a := adapter_reset (adapter_of session) in
      (with_sessions m (<[sid := with_history session [] a]> (_sessions m)), true)
  end.

(** [delete_session]: the adapter is closed, the session marked inactive
    and its entry removed; closing and removing the directory cannot fail
    the call (their exceptions are swallowed). *)
Definition delete_session (m : SessionManager) (sid : string)
  : SessionManager * bool :=
  match _sessions m !! sid with
  | None => (m, false)
  | Some _ => (with_sessions m (delete sid (_sessions m)), true)
  end.

(** [get_query_history] *)
Definition get_query_history (m : SessionManager) (sid now : string)
  : SessionManager * list QueryHistoryItem :=
  match get_session m sid now with
  | (m, None) => (m, [])
  | (m, Some session) => (m, query_history session)
  end.

(** A run of queries on one session, one after the other. *)
Definition run_queries (m : SessionManager) (sid : string) (sqls : list string)
  (now : string) : SessionManager :=
  fold_left (fun m sql => (execute_query m sid sql now).1) sqls m.

(** The history of a session, when it has an entry. *)
Definition history_of (m : SessionManager) (sid : string) : option (list QueryHistoryItem) :=
  query_history <$> (_sessions m !! sid).

(** The last [n] items of a list. *)
Definition last_n {A} (n : nat) (l : list A) : list A := drop (length l - n) l.

(** What [get_session] looks for: an entry that is active. *)
Definition present (m : SessionManager) (sid : string) : Prop :=
  exists s, _sessions m !! sid = Some s /\ is_active s = true.

(** Every entry of the registry is active and filed under its own id. *)
Definition registry_ok (m : SessionManager) : Prop :=
  forall sid s, _sessions m !! sid = Some s -> is_active s = true /\ session_id s = sid.

(** The registries a run of the service can be in: a new one, changed by
    the operations of the manager. *)
Inductive reachable : SessionManager -> Prop :=
| reach_new dir age cap :
    reachable (new_manager dir age cap)
| reach_create m sid now :
    reachable m -> reachable (create_session m sid now).1
| reach_get m sid now :
    reachable m -> reachable (get_session m sid now).1
| reach_execute m sid sql now :
    reachable m -> reachable (execute_query m sid sql now).1
| reach_reset m sid now :
    reachable m -> reachable (reset_session m sid now).1
| reach_delete m sid :
    reachable m -> reachable (delete_session m sid).1.

End Manager.

End session_manager.

Export session_manager.

(* ===================================================================== *)
(** * backend/models/challenge.py *)
(* ===================================================================== *)

Module challenge.

Inductive Difficulty : Type := BEGINNER | INTERMEDIATE | ADVANCED | EXPERT.

Inductive ChallengeCategory : Type :=
| SELECT_BASICS | FILTERING | JOINS | AGGREGATION | DDL | DML.

Inductive ValidationType : Type :=
| EXACT_MATCH | ROW_COUNT | CONTAINS_ROWS | COLUMN_CHECK.

(** [expected_value] is declared [Any]; each rule type reads it at one
    type: a count, a list of rows, or a list of column names. *)
Definition expected_of (t : ValidationType) : Type :=
  match t with
  | ROW_COUNT => Z
  | EXACT_MATCH => list Row
  | CONTAINS_ROWS => list Row
  | COLUMN_CHECK => list string
  end.

(** [ValidationRule] *)
Record ValidationRule : Type := mkRule {
  type : ValidationType;
  expected_value : expected_of type;
  order_matters : bool;
  case_sensitive : bool
}.

(** [Challenge] *)
Record Challenge : Type := mkChallenge {
  id : string;
  title : string;
  description : string;
  category : ChallengeCategory;
  difficulty : Difficulty;
  xp_reward : Z;
  setup_sql : list string;
  validation_rules : list ValidationRule;
  expected_query : option string;
  hints : list string;
  hint_penalty_xp : Z;
  estimated_time_minutes : Z;
  prerequisites : list string;
  tags : list string;
  concept_explanation : option string
}.

(** [ChallengeSubmission] *)
Record ChallengeSubmission : Type := mkSubmission {
  challenge_id : string;
  session_id : string;
  submitted_sql : string;
  submitted_at : string;
  passed : bool;
  execution_time_ms : spec_float;
  hints_used : Z;
  xp_earned : Z;
  feedback : string;
  actual_output : option (list Row)
}.

(** [LevelDefinition] *)
Record LevelDefinition : Type := mkLevel {
  level : Z;
  level_name : string;
  xp_required : Z
}.

Definition LEVELS : list LevelDefinition :=
  [ mkLevel 1 "SQL Novice" 0;
    mkLevel 2 "Query Apprentice" 100;
    mkLevel 3 "Data Explorer" 300;
    mkLevel 4 "Table Master" 600;
    mkLevel 5 "Join Journeyman" 1000;
    mkLevel 6 "Aggregate Adept" 1500;
    mkLevel 7 "Schema Sage" 2100;
    mkLevel 8 "Index Innovator" 2800;
    mkLevel 9 "Database Architect" 3600;
    mkLevel 10 "SQL Grandmaster" 5000 ].

(** The criteria kinds that [BADGES] uses for [criteria_type]. *)
Inductive CriteriaType : Type :=
| query_count | challenge_count | streak | category_complete | speed.

(** [criteria_value] is declared [Any]: a number, or a category name. *)
Definition criteria_of (t : CriteriaType) : Type :=
  match t with
  | category_complete => string
  | _ => Z
  end.

(** [Badge] *)
Record Badge : Type := mkBadge {
  badge_id : string;
  badge_name : string;
  badge_description : string;
  icon : string;
  criteria_type : CriteriaType;
  criteria_value : criteria_of criteria_type;
  xp_bonus : Z
}.

(** No entry of the table gives [xp_bonus], so each has the default 0. *)
Definition BADGES : list Badge :=
  [ mkBadge "first_query" "First Steps" "Execute your first SQL query" "rocket" query_count 1 0;
    mkBadge "first_challenge" "Challenge Accepted" "Complete your first challenge" "trophy" challenge_count 1 0;
    mkBadge "streak_3" "Consistent" "Maintain a 3-day streak" "fire" streak 3 0;
    mkBadge "streak_7" "Dedicated" "Maintain a 7-day streak" "fire" streak 7 0;
    mkBadge "select_master" "SELECT Master" "Complete all SELECT challenges" "star" category_complete "select_basics"%string 0;
    mkBadge "join_expert" "Join Expert" "Complete all JOIN challenges" "link" category_complete "joins"%string 0;
    mkBadge "speed_demon" "Speed Demon" "Complete a challenge in under 30 seconds" "bolt" speed 30 0;
    mkBadge "ten_challenges" "Getting Serious" "Complete 10 challenges" "award" challenge_count 10 0 ].

(** [UserProgress] *)
Record UserProgress : Type := mkProgress {
  user_id : string;
  total_xp : Z;
  current_level : Z;
  current_streak : Z;
  longest_streak : Z;
  last_activity_date : option string;
  completed_challenges : list string;
  earned_badges : list string;
  total_queries_executed : Z;
  progress_hints_used : Z
}.

(** [UserProgress(user_id=user_id)] *)
Definition new_progress (user_id : string) : UserProgress :=
  mkProgress user_id 0 1 0 0 None [] [] 0 0.

End challenge.

Export challenge.

(* ===================================================================== *)
(** * backend/core/challenge_engine.py *)
(* ===================================================================== *)

Module challenge_engine.

Section Rules.
Context `{PyBuiltins}.

(** The comprehension [{k.lower(): v for k, v in row.items()}]: a later
    key that folds to the same name overwrites the earlier value. *)
Definition normalize (row : Row) : gmap string value :=
  fold_left (fun acc kv => <[lower kv.1 := kv.2]> acc) row ∅.

(** One turn of the loop of [_rows_equal]: [true] when the two values make
    it return [False]. *)
Definition values_differ (case_sensitive : bool) (exp_val act_val : value) : bool :=
  let '(exp_val, act_val) :=
    match exp_val, act_val with
    | VStr e, VStr a =>
        if negb case_sensitive then (VStr (lower e), VStr (lower a))
        else (exp_val, act_val)
    | _, _ => (exp_val, act_val)
    end in
  match exp_val, act_val with
  | VFloat e, VFloat a => SFltb tolerance (SFabs (fsub e a))
  | _, _ => py_ne exp_val act_val
  end.

(** [_rows_equal] *)
Definition _rows_equal (expected actual : Row) (case_sensitive : bool) : bool :=
  let expected_norm := normalize expected in
  let actual_norm := normalize actual in
  if negb (bool_decide (dom expected_norm = dom actual_norm)) then false
  else
    forallb
      (fun kv : string * value =>
         let exp_val := kv.2 in
         let act_val := default VNone (actual_norm !! kv.1) in
         negb (values_differ case_sensitive exp_val act_val))
      (map_to_list expected_norm).

(** The positional loop of EXACT_MATCH: the index (from [i]) of the first
    pair that differs. *)
Fixpoint first_mismatch (case_sensitive : bool) (i : Z) (pairs : list (Row * Row))
  : option Z :=
  match pairs with
  | [] => None
  | (expected, actual) :: rest =>
      if negb (_rows_equal expected actual case_sensitive) then Some i
      else first_mismatch case_sensitive (i + 1) rest
  end.

(** The inner loop of the unordered checks: is [expected] among the rows? *)
Definition found (case_sensitive : bool) (actual_rows : list Row) (expected : Row) : bool :=
  existsb (fun actual => _rows_equal expected actual case_sensitive) actual_rows.

(** [_check_rule] *)
Definition _check_rule (result : QueryResult) (rule : ValidationRule) : bool * string :=
  match type rule as t return expected_of t -> bool * string with
  | ROW_COUNT => fun expected =>
      let actual := row_count result in
      if negb (actual =? expected)
      then (false, "Expected " +:+ str_int expected +:+ " rows, got " +:+ str_int actual)
      else (true, "Row count matches")
  | EXACT_MATCH => fun expected_rows =>
      let actual_rows := rows result in
      if negb (len actual_rows =? len expected_rows)
      then (false, "Expected " +:+ str_int (len expected_rows) +:+ " rows, got "
                     +:+ str_int (len actual_rows))
      else if order_matters rule then
        match first_mismatch (case_sensitive rule) 0 (zip expected_rows actual_rows) with
        | Some i => (false, "Row " +:+ str_int (i + 1) +:+ " doesn't match expected output")
        | None => (true, "Output matches expected")
        end
      else
        match find (fun expected => negb (found (case_sensitive rule) actual_rows expected))
                expected_rows with
        | Some expected => (false, "Missing expected row: " +:+ repr_row expected)
        | None => (true, "Output matches expected")
        end
  | CONTAINS_ROWS => fun expected_rows =>
      let actual_rows := rows result in
      match find (fun expected => negb (found (case_sensitive rule) actual_rows expected))
              expected_rows with
      | Some _ => (false, "Missing required row in output")
      | None => (true, "Contains all required rows")
      end
  | COLUMN_CHECK => fun expected =>
      let expected_columns : gset string := list_to_set (map lower expected) in
      let actual_columns : gset string := list_to_set (map lower (columns result)) in
      if negb (bool_decide (expected_columns = actual_columns)) then
        let missing := expected_columns ∖ actual_columns in
        let extra := actual_columns ∖ expected_columns in
        let msg := "Column mismatch." in
        let msg := if bool_decide (missing ≠ ∅)
                   then msg +:+ " Missing: " +:+ repr_set missing +:+ "." else msg in
        let msg := if bool_decide (extra ≠ ∅)
                   then msg +:+ " Unexpected: " +:+ repr_set extra +:+ "." else msg in
        (false, msg)
      else (true, "Columns match")
  end (expected_value rule).

(** The verdict of one rule. *)
Definition passes (result : QueryResult) (rule : ValidationRule) : bool :=
  (_check_rule result rule).1.

(** [_validate_against_rules] *)
Fixpoint _validate_against_rules (result : QueryResult) (rules : list ValidationRule)
  : bool * string :=
  match rules with
  | [] => (true, "All validations passed! Great job!"%string)
  | rule :: rules' =>
      let '(passed, feedback) := _check_rule result rule in
      if negb passed then (false, feedback)
      else _validate_against_rules result rules'
  end.

End Rules.

(** [_calculate_level] *)
Definition _calculate_level (xp : Z) : Z :=
  fold_left
    (fun level level_def => if xp >=? xp_required level_def then challenge.level level_def else level)
    LEVELS 1.

(** The [earned] flag that [_check_badges] computes for one badge: only
    three criteria kinds have a branch; for the others it stays [False]. *)
Definition badge_earned (progress : UserProgress) (badge : Badge) : bool :=
  match criteria_type badge as t return criteria_of t -> bool with
  | challenge_count => fun v => len (completed_challenges progress) >=? v
  | streak => fun v => current_streak progress >=? v
  | query_count => fun v => total_queries_executed progress >=? v
  | category_complete => fun _ => false
  | speed => fun _ => false
  end (criteria_value badge).

(** One turn of the loop of [_check_badges]. *)
Definition check_badge (progress : UserProgress) (badge : Badge) : UserProgress :=
  if bool_decide (badge_id badge ∈ earned_badges progress) then progress
  else if badge_earned progress badge then
    mkProgress (user_id progress) (total_xp progress + xp_bonus badge)
      (current_level progress) (current_streak progress) (longest_streak progress)
      (last_activity_date progress) (completed_challenges progress)
      (earned_badges progress ++ [badge_id badge])
      (total_queries_executed progress) (progress_hints_used progress)
  else progress.

(** [_check_badges] *)
Definition _check_badges (progress : UserProgress) : UserProgress :=
  fold_left check_badge BADGES progress.

Arguments _check_badges : simpl never.

(** Truth of an [Optional[str]]: [None] and the empty string are false. *)
Definition truthy (s : option string) : bool :=
  match s with
  | Some s => negb (String.eqb s EmptyString)
  | None => false
  end.

Section Engine.
Context `{LearnDB} `{PyBuiltins}.

(** [ChallengeEngine] *)
Record ChallengeEngine : Type := mkEngine {
  session_manager : SessionManager;
  _user_progress : gmap string UserProgress
}.

(** [setup_challenge]: the loop over [challenge.setup_sql]. *)
Fixpoint run_setup (m : SessionManager) (session_id : string) (sqls : list string)
  (now : string) : SessionManager * (bool * string) :=
  match sqls with
  | [] => (m, (true, "Challenge setup complete"%string))
  | sql :: rest =>
      let '(m, result) := execute_query m session_id sql now in
      if negb (success result)
      then (m, (false, "Setup failed: " +:+ default "None"%string (error_message result)))
      else run_setup m session_id rest now
  end.

(** [setup_challenge] *)
Definition setup_challenge (e : ChallengeEngine) (session_id : string)
  (challenge : Challenge) (now : string) : ChallengeEngine * (bool * string) :=
  let '(m, _) := reset_session (session_manager e) session_id now in
  let '(m, r) := run_setup m session_id (setup_sql challenge) now in
  (mkEngine m (_user_progress e), r).

(** [validate_submission] *)
Definition validate_submission (e : ChallengeEngine) (session_id : string)
  (challenge : Challenge) (submitted_sql : string) (hints_used : Z) (now : string)
  : ChallengeEngine * ChallengeSubmission :=
  let '(m, result) := execute_query (session_manager e) session_id submitted_sql now in
  let e := mkEngine m (_user_progress e) in
  if negb (success result) then
    (e, mkSubmission (id challenge) session_id submitted_sql now false
          (learndb_adapter.execution_time_ms result) hints_used 0
          ("Query error: " +:+ default "None"%string (error_message result))
          None)
  else
    let '(passed, feedback) := _validate_against_rules result (validation_rules challenge) in
    let xp_earned := 0 in
    let xp_earned :=
      if passed then
        let xp_earned := xp_reward challenge - hints_used * hint_penalty_xp challenge in
        Z.max xp_earned (xp_reward challenge / 4)
      else xp_earned in
    (e, mkSubmission (id challenge) session_id submitted_sql now passed
          (learndb_adapter.execution_time_ms result) hints_used xp_earned feedback
          (Some (rows result))).

(** [get_user_progress] *)
Definition get_user_progress (e : ChallengeEngine) (user_id : string)
  : ChallengeEngine * UserProgress :=
  match _user_progress e !! user_id with
  | Some progress => (e, progress)
  | None =>
      let progress := new_progress user_id in
      (mkEngine (session_manager e) (<[user_id := progress]> (_user_progress e)), progress)
  end.

(** The body of the [if] of [update_progress], on the progress record. *)
Definition record_pass (progress : UserProgress) (submission : ChallengeSubmission)
  (today : string) : UserProgress :=
  let completed := completed_challenges progress ++ [challenge_id submission] in
  let total := total_xp progress + xp_earned submission in
  let lvl := _calculate_level total in
  let cur :=
    match last_activity_date progress with
    | Some last_date =>
        if truthy (Some last_date) then
          if negb (String.eqb last_date today)
          then current_streak progress + 1
          else current_streak progress
        else 1
    | None => 1
    end in
  let longest := Z.max (longest_streak progress) cur in
  _check_badges
    (mkProgress (user_id progress) total lvl cur longest (Some today) completed
       (earned_badges progress) (total_queries_executed progress)
       (progress_hints_used progress)).

(** The last line of [update_progress]: [progress.hints_used += n]. *)
Definition add_hints (progress : UserProgress) (n : Z) : UserProgress :=
  mkProgress (user_id progress) (total_xp progress) (current_level progress)
    (current_streak progress) (longest_streak progress) (last_activity_date progress)
    (completed_challenges progress) (earned_badges progress)
    (total_queries_executed progress) (progress_hints_used progress + n).

(** What [update_progress] does to the record it is given. *)
Definition updated (progress : UserProgress) (submission : ChallengeSubmission)
  (today : string) : UserProgress :=
  let progress :=
    if passed submission
       && negb (bool_decide (challenge_id submission ∈ completed_challenges progress))
    then record_pass progress submission today
    else progress in
  add_hints progress (hints_used submission).

(** [update_progress]; the record is the one stored in the engine. *)
Definition update_progress (e : ChallengeEngine) (user_id : string)
  (submission : ChallengeSubmission) (today : string) : ChallengeEngine :=
  let '(e, progress) := get_user_progress e user_id in
  mkEngine (session_manager e)
    (<[user_id := updated progress submission today]> (_user_progress e)).

(** The record of a user as [get_user_progress] returns it: the stored
    one, or a zeroed one for a user seen for the first time. *)
Definition progress_of (e : ChallengeEngine) (user_id : string) : UserProgress :=
  default (new_progress user_id) (_user_progress e !! user_id).

End Engine.

End challenge_engine.

Export challenge_engine.

(* ===================================================================== *)
(** * backend/api/routes/challenges.py: the submit route *)
(* ===================================================================== *)

Module routes.

(** [SubmitRequest] *)
Record SubmitRequest : Type := mkRequest {
  sql : string;
  req_hints_used : Z
}.

(** [SubmitResponse] *)
Record SubmitResponse : Type := mkResponse {
  resp_success : bool;
  resp_passed : bool;
  resp_feedback : string;
  resp_xp_earned : Z;
  resp_execution_time_ms : spec_float;
  resp_actual_output : option (list Row)
}.

(** [HTTPException(status_code, detail)] *)
Record HTTPException : Type := mkHTTPException {
  status_code : Z;
  detail : string
}.

(** The response the route builds from a submission. *)
Definition response_of (submission : ChallengeSubmission) : SubmitResponse :=
  mkResponse (passed submission) (passed submission) (feedback submission)
    (xp_earned submission) (challenge.execution_time_ms submission)
    (if negb (passed submission) then actual_output submission else None).

Section Routes.
Context `{LearnDB} `{PyBuiltins}.

(** [submit_challenge]; the registry is the catalogue's [get]. *)
Definition submit_challenge (registry : gmap string Challenge) (engine : ChallengeEngine)
  (challenge_id session_id : string) (request : SubmitRequest) (now : string)
  : ChallengeEngine * (HTTPException + SubmitResponse) :=
  match registry !! challenge_id with
  | None =>
      (engine, inl (mkHTTPException 404 ("Challenge '" +:+ challenge_id +:+ "' not found")))
  | Some challenge =>
      let '(engine, submission) :=
        validate_submission engine session_id challenge (sql request)
          (req_hints_used request) now in
      (engine, inr (response_of submission))
  end.

End Routes.

End routes.

Export routes.

(* ===================================================================== *)
(** * A small engine to run the model on *)
(* ===================================================================== *)

Module Demo.

(** A database that holds the rows inserted so far. A statement is one of
    three words: "insert" adds a row, "select" returns the rows, "boom"
    raises; anything else is answered with a syntax error. *)
Record ToyDB : Type := mkToy {
  table : list Row;
  pipe : list PipeMsg
}.

Definition toy_row (n : Z) : Row :=
  [("id"%string, VInt n); ("name"%string, VStr "fruit")].

Definition toy_handle (db : ToyDB) (sql : string) : ToyDB * (string + Response) :=
  if String.eqb sql "insert" then
    (mkToy (table db ++ [toy_row (len (table db) + 1)]) (pipe db),
     inr (learndb_adapter.mkResponse true None))
  else if String.eqb sql "select" then
    (mkToy (table db) (pipe db ++ map HasToDict (table db)),
     inr (learndb_adapter.mkResponse true None))
  else if String.eqb sql "boom" then
    (db, inl "internal error"%string)
  else
    (db, inr (learndb_adapter.mkResponse false (Some "syntax error"%string))).

#[export] Instance toy : LearnDB := {|
  DB := ToyDB;
  open_db := fun _ _ => mkToy [] [];
  handle_input := toy_handle;
  read_pipe := fun db => (mkToy (table db) [], inr (pipe db));
  nuke_dbfile := fun _ => mkToy [] [];
  elapsed_ms := fun _ _ => fzero
|}.

Definition lower_ascii (c : ascii) : ascii :=
  let n := nat_of_ascii c in
  if ((65 <=? n) && (n <=? 90))%nat then ascii_of_nat (n + 32) else c.

(** [str.lower] on ASCII text. *)
Fixpoint ascii_lower (s : string) : string :=
  match s with
  | EmptyString => EmptyString
  | String c s' => String (lower_ascii c) (ascii_lower s')
  end.

#[export] Instance toy_builtins : PyBuiltins := {|
  lower := ascii_lower;
  repr_row := fun _ => "{...}"%string;
  repr_set := fun _ => "{...}"%string
|}.

Definition manager0 : SessionManager := new_manager "/tmp/learndb_sessions" 24 100.

(** A manager with one session, "s1". *)
Definition manager1 : SessionManager := (create_session manager0 "s1" "t0").1.

(** The same, with three rows inserted. *)
Definition manager3 : SessionManager :=
  let m := (execute_query manager1 "s1" "insert" "t1").1 in
  let m := (execute_query m "s1" "insert" "t2").1 in
  (execute_query m "s1" "insert" "t3").1.

Definition count3 : Challenge :=
  mkChallenge "demo_001" "Count" "Return the three rows" SELECT_BASICS BEGINNER 10
    [] [mkRule ROW_COUNT 3 false false; mkRule COLUMN_CHECK ["id"; "name"]%string false false]
    None [] 5 5 [] [] None.

Definition engine3 : ChallengeEngine := mkEngine manager3 ∅.

(** Three rules, of which the second and the third fail on three rows. *)
Definition count2 : Challenge :=
  mkChallenge "demo_002" "Count" "Return two rows" SELECT_BASICS BEGINNER 10
    [] [mkRule ROW_COUNT 3 false false; mkRule ROW_COUNT 2 false false;
        mkRule ROW_COUNT 5 false false]
    None [] 5 5 [] [] None.

(** A registry whose cap is two, with one session. *)
Definition manager_cap2 : SessionManager :=
  (create_session (new_manager "/tmp/learndb_sessions" 24 2) "s1" "t0").1.

(** A registry whose cap is zero, with one session. *)
Definition manager_cap0 : SessionManager :=
  (create_session (new_manager "/tmp/learndb_sessions" 24 0) "s1" "t0").1.

(** The session that [create_session] files under "s1". *)
Definition session1 : Session :=
  mkSession "s1" "/tmp/learndb_sessions/s1/db.file" "t0" "t0" true "sandbox" None None []
    (Some (new_adapter "/tmp/learndb_sessions/s1/db.file" true)).

(** A passing submission for a challenge, worth 10. *)
Definition pass_for (challenge_id : string) : ChallengeSubmission :=
  mkSubmission challenge_id "s1" "select" "t4" true fzero 0 10
    "All validations passed! Great job!" (Some []).

(** The content catalogue files three challenges under select_basics. *)
Definition select_basics_ids : list string := ["select_001"; "select_002"; "select_003"]%string.

(** User "u" after a pass on the first two of them. *)
Definition engine_select2 : ChallengeEngine :=
  fold_left (fun e cid => update_progress e "u" (pass_for cid) "2024-01-01")
    ["select_001"; "select_002"]%string engine3.

(** User "u" after a pass on each of them, on one day. *)
Definition engine_select : ChallengeEngine :=
  fold_left (fun e cid => update_progress e "u" (pass_for cid) "2024-01-01")
    select_basics_ids engine3.

(** The record the engine holds for "u" after the first two. *)
Definition progress_select2 : UserProgress :=
  mkProgress "u" 20 1 1 1 (Some "2024-01-01"%string) ["select_001"; "select_002"]%string
    ["first_challenge"%string] 0 0.

(** The record the engine holds for "u" after all three. *)
Definition progress_select : UserProgress :=
  mkProgress "u" 30 1 1 1 (Some "2024-01-01"%string) select_basics_ids
    ["first_challenge"%string] 0 0.

(** The progress of a user who has completed "demo_001". *)
Definition progress_done : UserProgress :=
  mkProgress "u" 10 1 1 1 (Some "2024-01-01"%string) ["demo_001"%string]
    ["first_challenge"%string] 0 0.

Definition engine_done : ChallengeEngine := mkEngine manager3 {[ "u"%string := progress_done ]}.

Definition select_master : Badge :=
  mkBadge "select_master" "SELECT Master" "Complete all SELECT challenges" "star"
    category_complete "select_basics"%string 0.

End Demo.

(* ===================================================================== *)
(** * The rest of the cited files *)
(* ===================================================================== *)

(** ** backend/models/challenge.py: the methods of [UserProgress] *)

Module progress_methods.

(** [UserProgress.get_level_info]: the table is searched from the top. *)
Definition get_level_info (p : UserProgress) : LevelDefinition :=
  match find (fun level => total_xp p >=? xp_required level) (rev LEVELS) with
  | Some level => level
  | None => nth 0 LEVELS (mkLevel 1 "SQL Novice" 0)
  end.

(** [UserProgress.xp_to_next_level] *)
Definition xp_to_next_level (p : UserProgress) : Z :=
  let current := get_level_info p in
  match find (fun level => challenge.level level >? challenge.level current) LEVELS with
  | Some level => xp_required level - total_xp p
  | None => 0
  end.

End progress_methods.

Export progress_methods.

(** ** backend/core/learndb_adapter.py and session_manager.py: presets,
    listing and the staleness sweep *)

Module manager_rest.

(** Two more builtins taken as given: [s.strip()], and the age test of the
    sweep, [(now - datetime.fromisoformat(last)).total_seconds() / 3600 >
    max_hours], on the ISO texts of the two instants. *)
Class PyTime : Type := {
  strip : string -> string;
  older_than : string -> string -> Z -> bool
}.

(** The two shapes of a [QueryResult] that the adapter and the manager
    build: rows with their count and no error, or an error and no rows. *)
Definition well_shaped (r : QueryResult) : Prop :=
  if success r
  then row_count r = len (rows r) /\ error_message r = None
  else rows r = [] /\ columns r = [] /\ row_count r = 0.

(** One entry of [list_sessions]. *)
Record SessionSummary : Type := mkSummary {
  sum_session_id : string;
  sum_created_at : string;
  sum_last_activity_at : string;
  sum_current_mode : string
}.

Section Rest.
Context `{LearnDB} `{PyTime}.

(** [LearnDBAdapter.execute_multi]: each statement is stripped, and run
    when something is left of it. *)
Fixpoint execute_multi (a : LearnDBAdapter) (sql_statements : list string)
  : LearnDBAdapter * list QueryResult :=
  match sql_statements with
  | [] => (a, [])
  | sql :: rest =>
      let sql := strip sql in
      if negb (String.eqb sql EmptyString) then
        let '(a, r) := adapter_execute_query a sql in
        let '(a, results) := execute_multi a rest in
        (a, r :: results)
      else execute_multi a rest
  end.

(** [SessionManager.load_preset] *)
Definition load_preset (m : SessionManager) (sid : string) (preset_sql : list string)
  (now : string) : SessionManager * list QueryResult :=
  match get_session m sid now with
  | (m, None) => (m, [not_found sid])
  | (m, Some session) =>
      let a := adapter_reset (adapter_of session) in
      let '(a, results) := execute_multi a preset_sql in
      (with_sessions m (<[sid := with_history session [] a]> (_sessions m)), results)
  end.

(** The results of a run of queries on one session, in the order run. *)
Fixpoint results_of (m : SessionManager) (sid : string) (sqls : list string)
  (now : string) : list QueryResult :=
  match sqls with
  | [] => []
  | sql :: rest =>
      let '(m, r) := execute_query m sid sql now in
      r :: results_of m sid rest now
  end.

Definition summary_of (s : Session) : SessionSummary :=
  mkSummary (session_manager.session_id s) (created_at s) (last_activity_at s)
    (current_mode s).

(** [SessionManager.list_sessions]: the active sessions, in the order the
    registry enumerates them ([map_to_list]; Python's is insertion order,
    which a [gmap] does not keep). *)
Definition list_sessions (m : SessionManager) : list SessionSummary :=
  summary_of <$> List.filter is_active ((map_to_list (_sessions m)).*2).

(** The first loop of [cleanup_stale_sessions]: the ids whose last
    activity is too old. *)
Definition stale_ids (m : SessionManager) (now : string) : list string :=
  (List.filter
     (fun kv : string * Session =>
        older_than now (last_activity_at kv.2) (max_session_age_hours m))
     (map_to_list (_sessions m))).*1.

(** [SessionManager.cleanup_stale_sessions]: each stale id goes through
    [delete_session]; the count of stale ids is returned. *)
Definition cleanup_stale_sessions (m : SessionManager) (now : string)
  : SessionManager * Z :=
  let ids := stale_ids m now in
  (fold_left (fun m sid => (delete_session m sid).1) ids m, len ids).

End Rest.

End manager_rest.

Export manager_rest.

(** ** backend/api/routes/challenges.py: the hint route *)

Module routes_rest.

(** [HintResponse] *)
Record HintResponse : Type := mkHint {
  hint_index : Z;
  hint : string;
  hints_remaining : Z
}.

(** [get_hint]; past the range guard the index is inside the list. *)
Definition get_hint (registry : gmap string Challenge) (challenge_id : string)
  (hint_index : Z) : HTTPException + HintResponse :=
  match registry !! challenge_id with
  | None => inl (mkHTTPException 404 ("Challenge '" +:+ challenge_id +:+ "' not found"))
  | Some challenge =>
      if (hint_index <? 0) || (hint_index >=? len (hints challenge))
      then inl (mkHTTPException 400 "Invalid hint index")
      else inr (mkHint hint_index
                  (nth (Z.to_nat hint_index) (hints challenge) EmptyString)
                  (len (hints challenge) - hint_index - 1))
  end.

End routes_rest.

Export routes_rest.

(** ** What a progress record keeps *)

Module progress_invariant.

(** No challenge and no badge is listed twice, the longest streak is not
    below the current one, and the level is the one of the experience. *)
Definition progress_ok (p : UserProgress) : Prop :=
  NoDup (completed_challenges p) /\
  NoDup (earned_badges p) /\
  current_streak p <= longest_streak p /\
  current_level p = _calculate_level (total_xp p).

Section EngineOk.
Context `{LearnDB}.

Definition engine_ok (e : ChallengeEngine) : Prop :=
  forall user p, _user_progress e !! user = Some p -> progress_ok p.

End EngineOk.

End progress_invariant.

Export progress_invariant.

(** ** More of the small engine *)

Module Demo2.
Import Demo.

(** Blanks are spaces; an instant is old when its text starts with "old". *)
Fixpoint lstrip (s : string) : string :=
  match s with
  | String " " s' => lstrip s'
  | _ => s
  end.

Fixpoint rstrip (s : string) : string :=
  match s with
  | EmptyString => EmptyString
  | String c s' =>
      match rstrip s' with
      | EmptyString => if Ascii.eqb c " " then EmptyString else String c EmptyString
      | r => String c r
      end
  end.

#[export] Instance toy_time : PyTime := {|
  strip := fun s => rstrip (lstrip s);
  older_than := fun _ last _ => String.prefix "old" last
|}.

(** Two sessions, the first one old. *)
Definition manager_two : SessionManager :=
  let m := (create_session manager0 "s1" "old-t0").1 in
  (create_session m "s2" "t1").1.

Definition hints3 : Challenge :=
  mkChallenge "demo_003" "Hints" "Three hints" SELECT_BASICS BEGINNER 10
    ["insert"; "insert"]%string [mkRule ROW_COUNT 2 false false]
    None ["first"; "second"; "third"]%string 5 5 [] [] None.

Definition catalogue : gmap string Challenge := {[ "demo_003"%string := hints3 ]}.

(** Setup statements of which the second is malformed. *)
Definition broken_setup : Challenge :=
  mkChallenge "demo_004" "Broken" "Setup fails" SELECT_BASICS BEGINNER 10
    ["insert"; "insrt"; "insert"]%string [] None [] 5 5 [] [] None.

(** One dictionary, listed in two orders. *)
Definition row_ab : Row := [("Id"%string, VInt 1); ("name"%string, VStr "apple")].
Definition row_ba : Row := [("name"%string, VStr "apple"); ("Id"%string, VInt 1)].

Definition result_of_rows (rows : list Row) : QueryResult :=
  mkQueryResult true rows ["id"; "name"]%string (len rows) None fzero.

(** A record with 250 points. *)
Definition progress_250 : UserProgress :=
  mkProgress "u" 250 2 1 1 (Some "2024-01-01"%string) [] [] 0 0.


(** An engine on the registry with one fresh session. *)
Definition engine1 : ChallengeEngine := mkEngine manager1 ∅.

End Demo2.

(* ===================================================================== *)
(** * Properties *)
(* ===================================================================== *)

(** ** Row equality *)

Section RowEquality.
Context `{PyBuiltins}.

(** Rounding to binary64 treats a magnitude the same under either sign. *)
Lemma binary_round_abs (m : positive) (e : Z) :
  SFabs (binary_round prec emax true m e) = SFabs (binary_round prec emax false m e).
Proof.
  unfold binary_round, binary_round_aux.
  destruct (shl_align m e _) as [mz ez].
  destruct (shr_fexp prec emax (Z.pos mz) ez loc_Exact) as [mrs' e'].
  destruct (shr_fexp prec emax _ e' loc_Exact) as [mrs'' e''].
  destruct (shr_m mrs'') as [|q|q]; simpl; try reflexivity.
  destruct (e'' <=? emax - prec); reflexivity.
Qed.

Lemma binary_normalize_abs (z e : Z) (s : bool) :
  SFabs (binary_normalize prec emax (- z) e s) = SFabs (binary_normalize prec emax z e s).
Proof.
  destruct z as [|p|p]; simpl; auto using binary_round_abs.
Qed.

(** [abs(x - y)] and [abs(y - x)] are the same float. *)
Lemma fsub_abs_sym (x y : spec_float) : SFabs (fsub x y) = SFabs (fsub y x).
Proof.
  unfold fsub.
  destruct x as [sx|sx| |sx mx ex], y as [sy|sy| |sy my ey]; simpl;
    try reflexivity; try (destruct sx; reflexivity); try (destruct sy; reflexivity);
    try (destruct sx, sy; reflexivity).
  rewrite (Z.min_comm ey ex).
  rewrite <- binary_normalize_abs. f_equal. f_equal. lia.
Qed.

(** One comparison of [_rows_equal] does not depend on which value is on
    which side. *)
Lemma values_differ_sym (cs : bool) (x y : value) :
  values_differ cs x y = values_differ cs y x.
Proof.
  unfold values_differ, py_ne.
  destruct x as [|b|n|f|s], y as [|b'|n'|f'|s']; simpl; try reflexivity;
    try (now rewrite Z.eqb_sym).
  - now rewrite fsub_abs_sym.
  - destruct cs; simpl; now rewrite String.eqb_sym.
Qed.

Lemma rows_match_swap (cs : bool) (E A : gmap string value) :
  dom E = dom A ->
  map_Forall (fun k v => negb (values_differ cs v (default VNone (A !! k))) = true) E ->
  map_Forall (fun k v => negb (values_differ cs v (default VNone (E !! k))) = true) A.
Proof.
  intros Hdom HE k a Hka.
  assert (is_Some (E !! k)) as [e Hke].
  { apply (elem_of_dom (D := gset string)). rewrite Hdom. apply elem_of_dom. eauto. }
  specialize (HE k e Hke). simpl in HE.
  rewrite Hka in HE. rewrite Hke. simpl in *.
  now rewrite values_differ_sym.
Qed.

Lemma forallb_map_Forall (P : string -> value -> bool) (m : gmap string value) :
  forallb (fun kv : string * value => P kv.1 kv.2) (map_to_list m) = true <->
  map_Forall (fun k v => P k v = true) m.
Proof.
  rewrite forallb_forall. split.
  - intros Hall k v Hkv. apply (Hall (k, v)).
    apply list_elem_of_In, elem_of_map_to_list, Hkv.
  - intros Hall [k v] Hin. apply list_elem_of_In, elem_of_map_to_list in Hin.
    apply (Hall k v Hin).
Qed.

(** Row equality does not depend on the order of its two rows, whatever
    the case-sensitivity flag. *)
Lemma rows_equal_sym (A B : Row) (cs : bool) :
  _rows_equal A B cs = _rows_equal B A cs.
Proof.
  unfold _rows_equal.
  destruct (decide (dom (normalize A) = dom (normalize B))) as [Hdom|Hdom].
  - rewrite !bool_decide_eq_true_2 by (done || by symmetry). simpl.
    apply eq_true_iff_eq.
    rewrite (forallb_map_Forall
      (fun k v => negb (values_differ cs v (default VNone (normalize B !! k))))).
    rewrite (forallb_map_Forall
      (fun k v => negb (values_differ cs v (default VNone (normalize A !! k))))).
    split; apply rows_match_swap; done.
  - rewrite !bool_decide_eq_false_2 by (done || by intros ?; apply Hdom). reflexivity.
Qed.

(** C8. For all rows A and B, row equality with [case_sensitive=False] is
    symmetric: [_rows_equal(A, B, False)] equals [_rows_equal(B, A, False)]. *)
Theorem rows_equal_symmetric (A B : Row) :
  _rows_equal A B false = _rows_equal B A false.
Proof. apply rows_equal_sym. Qed.

End RowEquality.

(** ** The session registry *)

Section Registry.
Context `{LearnDB}.

Implicit Types (m : SessionManager) (s : Session) (sid sql now : string).
Implicit Types (history items : list QueryHistoryItem).

(** *** Lookup, stamping and deletion *)

Lemma get_session_none m sid now :
  ~ present m sid -> get_session m sid now = (m, None).
Proof.
  intros Hno. unfold get_session.
  destruct (_sessions m !! sid) as [s|] eqn:Hs; [|reflexivity].
  destruct (is_active s) eqn:Ha; [|reflexivity].
  destruct Hno. exists s. auto.
Qed.

Lemma get_session_some m sid now s :
  _sessions m !! sid = Some s -> is_active s = true ->
  get_session m sid now =
    (with_sessions m (<[sid := stamp s now (adapter_of s)]> (_sessions m)),
     Some (stamp s now (adapter_of s))).
Proof.
  intros Hs Ha. unfold get_session, adapter_of. rewrite Hs, Ha. reflexivity.
Qed.

Lemma not_present_None m sid : _sessions m !! sid = None -> ~ present m sid.
Proof. intros Hs [s [Hs' _]]. congruence. Qed.

Lemma delete_session_lookup m sid :
  _sessions (delete_session m sid).1 !! sid = None.
Proof.
  unfold delete_session. destruct (_sessions m !! sid) eqn:Hs; simpl; [|exact Hs].
  apply lookup_delete_eq.
Qed.

Lemma delete_session_absent m sid :
  _sessions m !! sid = None -> delete_session m sid = (m, false).
Proof. intros Hs. unfold delete_session. now rewrite Hs. Qed.

(** Deleting one session leaves the others as they are. *)
Lemma delete_session_other m sid sid' :
  sid <> sid' -> _sessions (delete_session m sid).1 !! sid' = _sessions m !! sid'.
Proof.
  intros Hne. unfold delete_session.
  destruct (_sessions m !! sid); simpl; [|reflexivity].
  now apply lookup_delete_ne.
Qed.

(** *** One query *)

(** What [execute_query] does to a present session: the adapter's answer
    is returned as it is, and an item that records it is appended to the
    history, which is then trimmed. The session stays active and keeps its
    id and mode. *)
Lemma execute_query_present m sid sql now s :
  _sessions m !! sid = Some s -> is_active s = true ->
  exists item s',
    hi_sql item = sql /\
    hi_success item = success (execute_query m sid sql now).2 /\
    (execute_query m sid sql now).2 = (adapter_execute_query (adapter_of s) sql).2 /\
    _sessions (execute_query m sid sql now).1 !! sid = Some s' /\
    is_active s' = true /\
    session_manager.session_id s' = session_manager.session_id s /\
    current_mode s' = current_mode s /\
    query_history s' = trimmed (max_history_items m) (query_history s ++ [item]).
Proof.
  intros Hs Ha. unfold execute_query. rewrite (get_session_some _ _ _ _ Hs Ha).
  replace (adapter_of (stamp s now (adapter_of s))) with (adapter_of s) by reflexivity.
  destruct (adapter_execute_query (adapter_of s) sql) as [a result].
  eexists (mkHistoryItem sql now _ _ _ _), _. simpl.
  do 3 (split; [reflexivity|]). split; [apply lookup_insert_eq|]. simpl.
  split; [exact Ha|]. do 2 (split; [reflexivity|]). reflexivity.
Qed.

Lemma execute_query_cap m sid sql now :
  max_history_items (execute_query m sid sql now).1 = max_history_items m.
Proof.
  unfold execute_query, get_session.
  destruct (_sessions m !! sid) as [s|]; [|reflexivity].
  destruct (is_active s); [|reflexivity].
  destruct (adapter_execute_query _ sql) as [a result]. reflexivity.
Qed.

(** *** The trim *)

Lemma last_n_short {A} (n : nat) (l : list A) : (length l <= n)%nat -> last_n n l = l.
Proof. intros Hl. unfold last_n. now replace (length l - n)%nat with 0%nat by lia. Qed.

Lemma length_last_n {A} (n : nat) (l : list A) : length (last_n n l) = Nat.min n (length l).
Proof. unfold last_n. rewrite length_drop. lia. Qed.

(** Keeping the last [n] of a list that was itself cut to its last [n]
    before it was extended is keeping the last [n] of the whole. *)
Lemma last_n_app_last_n {A} (n : nat) (a b : list A) :
  last_n n (last_n n a ++ b) = last_n n (a ++ b).
Proof.
  destruct (decide (length a <= n)%nat) as [Hle|Hgt].
  - now rewrite (last_n_short n a Hle).
  - unfold last_n at 1 3. rewrite !length_app, length_last_n.
    replace (Nat.min n (length a) + length b - n)%nat with (length b) by lia.
    replace (length a + length b - n)%nat with ((length a - n) + length b)%nat by lia.
    rewrite <- drop_drop, (drop_app_le a b (length a - n)) by lia. reflexivity.
Qed.

(** With a cap of at least one, the trim keeps the last [cap] items. *)
Lemma trimmed_positive (cap : Z) history :
  1 <= cap -> trimmed cap history = last_n (Z.to_nat cap) history.
Proof.
  intros Hcap. unfold trimmed, slice_from, last_n, len.
  destruct (cap <? Z.of_nat (length history)) eqn:Hlt.
  - apply Z.ltb_lt in Hlt.
    replace (- cap <? 0) with true by (symmetry; apply Z.ltb_lt; lia).
    f_equal. lia.
  - apply Z.ltb_ge in Hlt.
    replace (length history - Z.to_nat cap)%nat with 0%nat by lia. reflexivity.
Qed.

(** With a cap of zero the slice is [history[-0:]], which is
    [history[0:]]: nothing is cut. *)
Lemma trimmed_zero history : trimmed 0 history = history.
Proof.
  unfold trimmed, slice_from. simpl.
  destruct (0 <? len history); [|reflexivity].
  rewrite Z.min_l by (unfold len; lia). reflexivity.
Qed.

(** *** A run of queries *)

(** The history after a run of queries: one item per statement, in the
    order of the run, each appended and followed by the trim. *)
Lemma run_queries_history m sid (sqls : list string) now s :
  _sessions m !! sid = Some s -> is_active s = true ->
  exists items,
    hi_sql <$> items = sqls /\
    history_of (run_queries m sid sqls now) sid =
      Some (fold_left (fun h item => trimmed (max_history_items m) (h ++ [item]))
              items (query_history s)).
Proof.
  revert m s. induction sqls as [|sql sqls IH]; intros m s Hs Ha.
  - exists []. split; [reflexivity|]. unfold history_of. simpl. now rewrite Hs.
  - destruct (execute_query_present m sid sql now s Hs Ha)
      as (item & s' & Hsql & _ & _ & Hs' & Ha' & _ & _ & Hh).
    destruct (IH _ s' Hs' Ha') as (items & Hsqls & Hhist).
    exists (item :: items). split; [now rewrite fmap_cons, Hsql, Hsqls|].
    change (run_queries m sid (sql :: sqls) now)
      with (run_queries (execute_query m sid sql now).1 sid sqls now).
    rewrite Hhist, execute_query_cap, Hh. reflexivity.
Qed.

Lemma fold_trimmed_positive (cap : Z) items history :
  1 <= cap -> (length history <= Z.to_nat cap)%nat ->
  fold_left (fun h item => trimmed cap (h ++ [item])) items history
  = last_n (Z.to_nat cap) (history ++ items).
Proof.
  intros Hcap. revert history. induction items as [|item items IH]; intros history Hlen.
  - simpl. rewrite app_nil_r. symmetry. now apply last_n_short.
  - simpl. rewrite IH.
    + rewrite trimmed_positive by exact Hcap.
      rewrite last_n_app_last_n, <- app_assoc. reflexivity.
    + rewrite trimmed_positive by exact Hcap. rewrite length_last_n. lia.
Qed.

Lemma fold_trimmed_zero items history :
  fold_left (fun h item => trimmed 0 (h ++ [item])) items history = history ++ items.
Proof.
  revert history. induction items as [|item items IH]; intros history; simpl.
  - now rewrite app_nil_r.
  - rewrite trimmed_zero, IH, <- app_assoc. reflexivity.
Qed.

(** The cap at work when it is at least one: after any query the history
    is no longer than the cap, and what is kept is the most recent end of
    the old history followed by the new item (the oldest go first). *)
Lemma execute_query_history_cap m sid sql now s :
  1 <= max_history_items m ->
  _sessions m !! sid = Some s -> is_active s = true ->
  exists item s',
    hi_sql item = sql /\
    _sessions (execute_query m sid sql now).1 !! sid = Some s' /\
    query_history s' = last_n (Z.to_nat (max_history_items m)) (query_history s ++ [item]) /\
    len (query_history s') <= max_history_items m.
Proof.
  intros Hcap Hs Ha.
  destruct (execute_query_present m sid sql now s Hs Ha)
    as (item & s' & Hsql & _ & _ & Hs' & _ & _ & _ & Hh).
  exists item, s'. split; [exact Hsql|]. split; [exact Hs'|].
  rewrite Hh, trimmed_positive by exact Hcap. split; [reflexivity|].
  unfold len. rewrite length_last_n. lia.
Qed.

(** Any number of queries on a fresh session with a cap of N >= 1 leaves
    the N most recent statements, in the order they were run; so N+1
    queries leave all but the first. *)
Lemma run_queries_keeps_most_recent m sid (sqls : list string) now s :
  1 <= max_history_items m ->
  _sessions m !! sid = Some s -> is_active s = true -> query_history s = [] ->
  exists items,
    history_of (run_queries m sid sqls now) sid = Some items /\
    hi_sql <$> items = last_n (Z.to_nat (max_history_items m)) sqls.
Proof.
  intros Hcap Hs Ha Hempty.
  destruct (run_queries_history m sid sqls now s Hs Ha) as (items & Hsqls & Hhist).
  rewrite Hempty, fold_trimmed_positive in Hhist by (simpl; lia).
  eexists. split; [exact Hhist|]. simpl.
  unfold last_n. rewrite fmap_drop, Hsqls, <- (length_fmap hi_sql), Hsqls. reflexivity.
Qed.

(** *** The registry invariant *)

(** The invariant holds at start and every operation keeps it, so in a
    running registry an id with an entry is a present session. *)
Lemma registry_ok_new dir (age cap : Z) : registry_ok (new_manager dir age cap).
Proof. intros sid s Hs. simpl in Hs. now rewrite lookup_empty in Hs. Qed.

Lemma registry_ok_insert m sid s :
  registry_ok m -> is_active s = true -> session_manager.session_id s = sid ->
  registry_ok (with_sessions m (<[sid := s]> (_sessions m))).
Proof.
  intros Hok Ha Hid sid' s' Hs'. simpl in Hs'.
  destruct (decide (sid = sid')) as [->|Hne].
  - rewrite lookup_insert_eq in Hs'. injection Hs' as <-. auto.
  - rewrite lookup_insert_ne in Hs' by exact Hne. now apply Hok.
Qed.

Lemma registry_ok_create m sid now :
  registry_ok m -> registry_ok (create_session m sid now).1.
Proof. intros Hok. now apply registry_ok_insert. Qed.

Lemma registry_ok_get m sid now :
  registry_ok m -> registry_ok (get_session m sid now).1.
Proof.
  intros Hok. unfold get_session.
  destruct (_sessions m !! sid) as [s|] eqn:Hs; [|exact Hok].
  destruct (is_active s) eqn:Ha; [|exact Hok].
  apply registry_ok_insert; [exact Hok|exact Ha|]. simpl. now apply Hok.
Qed.

Lemma registry_ok_execute m sid sql now :
  registry_ok m -> registry_ok (execute_query m sid sql now).1.
Proof.
  intros Hok. unfold execute_query.
  destruct (_sessions m !! sid) as [s|] eqn:Hs.
  - destruct (Hok _ _ Hs) as [Ha Hid]. rewrite (get_session_some _ _ _ _ Hs Ha).
    destruct (adapter_execute_query _ sql) as [a result]. simpl.
    intros sid' s' Hs'. rewrite insert_insert_eq in Hs'.
    revert sid' s' Hs'. now apply (registry_ok_insert m sid).
  - now rewrite (get_session_none m sid now (not_present_None _ _ Hs)).
Qed.

Lemma registry_ok_reset m sid now :
  registry_ok m -> registry_ok (reset_session m sid now).1.
Proof.
  intros Hok. unfold reset_session.
  destruct (_sessions m !! sid) as [s|] eqn:Hs.
  - destruct (Hok _ _ Hs) as [Ha Hid]. rewrite (get_session_some _ _ _ _ Hs Ha). simpl.
    intros sid' s' Hs'. rewrite insert_insert_eq in Hs'.
    revert sid' s' Hs'. now apply (registry_ok_insert m sid).
  - now rewrite (get_session_none m sid now (not_present_None _ _ Hs)).
Qed.

Lemma registry_ok_delete m sid :
  registry_ok m -> registry_ok (delete_session m sid).1.
Proof.
  intros Hok. unfold delete_session.
  destruct (_sessions m !! sid) as [s|] eqn:Hs; [|exact Hok].
  intros sid' s' Hs'. simpl in Hs'.
  apply lookup_delete_Some in Hs' as [_ Hs']. now apply Hok.
Qed.

Create HintDb registry.

#[local] Hint Resolve registry_ok_new registry_ok_create registry_ok_get
  registry_ok_execute registry_ok_reset registry_ok_delete : registry.

Lemma reachable_ok m : reachable m -> registry_ok m.
Proof. induction 1; auto with registry. Qed.

Lemma registry_ok_run_queries m sid (sqls : list string) now :
  registry_ok m -> registry_ok (run_queries m sid sqls now).
Proof.
  revert m. induction sqls as [|sql sqls IH]; intros m Hok; simpl; auto with registry.
Qed.

(** Under the invariant, present is having an entry. *)
Lemma present_iff_entry m sid :
  registry_ok m -> (present m sid <-> is_Some (_sessions m !! sid)).
Proof.
  intros Hok. split.
  - intros (s & Hs & _). eauto.
  - intros [s Hs]. exists s. split; [exact Hs|]. now apply (Hok sid s).
Qed.

(** In a running registry, [get_query_history] on a session that has an
    entry returns its history. *)
Lemma get_query_history_entry m sid now s :
  reachable m -> _sessions m !! sid = Some s ->
  (get_query_history m sid now).2 = query_history s.
Proof.
  intros Hm Hs. destruct (reachable_ok m Hm sid s Hs) as [Ha _].
  unfold get_query_history. now rewrite (get_session_some _ _ _ _ Hs Ha).
Qed.

(** *** Deletion, reset and the cap *)

(** C5, at a cap of zero. With [max_history_items = 0] the trim is
    [history[-0:]], the whole list: a run of queries leaves every item in
    the history, so from the first query on the history is longer than the
    cap. *)
Theorem history_cap_zero_never_trims m sid (sqls : list string) now s :
  max_history_items m = 0 ->
  _sessions m !! sid = Some s -> is_active s = true ->
  exists items,
    history_of (run_queries m sid sqls now) sid = Some (query_history s ++ items) /\
    hi_sql <$> items = sqls /\
    (sqls <> [] -> max_history_items m < len (query_history s ++ items)).
Proof.
  intros Hcap Hs Ha.
  destruct (run_queries_history m sid sqls now s Hs Ha) as (items & Hsqls & Hhist).
  rewrite Hcap, fold_trimmed_zero in Hhist.
  exists items. split; [exact Hhist|]. split; [exact Hsqls|].
  intros Hne. rewrite Hcap. unfold len. rewrite length_app.
  destruct items; [simpl in Hsqls; congruence|]. simpl. lia.
Qed.

(** C4. After [delete_session], [execute_query] on that id returns the
    not-found failure, and [delete_session] on it again returns false, both
    times it is repeated; none of these raises or changes the registry. *)
Theorem execute_and_delete_after_delete m sid sql now :
  let m1 := (delete_session m sid).1 in
  execute_query m1 sid sql now = (m1, not_found sid) /\
  success (not_found sid) = false /\
  error_message (not_found sid) = Some ("Session '" +:+ sid +:+ "' not found") /\
  delete_session m1 sid = (m1, false) /\
  delete_session (delete_session m1 sid).1 sid = (m1, false).
Proof.
  intros m1. pose proof (delete_session_lookup m sid) as Hgone. fold m1 in Hgone.
  repeat split.
  - unfold execute_query.
    rewrite (get_session_none m1 sid now (not_present_None _ _ Hgone)). reflexivity.
  - apply delete_session_absent, Hgone.
  - rewrite (delete_session_absent _ _ Hgone). simpl.
    apply delete_session_absent, Hgone.
Qed.


End Registry.

(** ** Grading a submission *)

Section Grading.
Context `{LearnDB} `{PyBuiltins}.

Implicit Types (e : ChallengeEngine) (c : Challenge) (sid sql now : string) (h : Z).
Implicit Types (result : QueryResult) (rules : list ValidationRule).

(** Open [validate_submission] and name the outcome of its query. *)
Ltac run_submission :=
  unfold validate_submission;
  match goal with
  | |- context [execute_query ?sm ?sid ?sql ?now] =>
      destruct (execute_query sm sid sql now) as [m result]; simpl
  end.

Lemma validate_stops_at_first_failure result pre r post :
  Forall (fun r' => passes result r' = true) pre -> passes result r = false ->
  _validate_against_rules result (pre ++ r :: post) = (false, (_check_rule result r).2).
Proof.
  intros Hpre Hr. induction Hpre as [|r' pre Hr' _ IH]; simpl.
  - unfold passes in Hr. destruct (_check_rule result r) as [p fb]. simpl in *. now rewrite Hr.
  - unfold passes in Hr'. destruct (_check_rule result r') as [p fb]. simpl in *. now rewrite Hr'.
Qed.

Lemma validate_all_pass result rules :
  Forall (fun r => passes result r = true) rules ->
  _validate_against_rules result rules = (true, "All validations passed! Great job!"%string).
Proof.
  induction 1 as [|r rules Hr _ IH]; simpl; [reflexivity|].
  unfold passes in Hr. destruct (_check_rule result r) as [p fb]. simpl in *. now rewrite Hr.
Qed.

(** A submission whose query did not execute. *)
Lemma validate_submission_not_executed e sid c sql h now :
  success (execute_query (session_manager e) sid sql now).2 = false ->
  let sub := (validate_submission e sid c sql h now).2 in
  passed sub = false /\ xp_earned sub = 0 /\ actual_output sub = None.
Proof.
  run_submission. intros ->. simpl. auto.
Qed.

(** A submission whose query executed: verdict and feedback are those of
    [_validate_against_rules], and the rows are attached. *)
Lemma validate_submission_executed e sid c sql h now :
  success (execute_query (session_manager e) sid sql now).2 = true ->
  let result := (execute_query (session_manager e) sid sql now).2 in
  let sub := (validate_submission e sid c sql h now).2 in
  passed sub = (_validate_against_rules result (validation_rules c)).1 /\
  feedback sub = (_validate_against_rules result (validation_rules c)).2 /\
  actual_output sub = Some (rows result).
Proof.
  run_submission. intros ->. simpl.
  destruct (_validate_against_rules result _) as [p fb]. simpl. auto.
Qed.

(** C3. With a base reward that is not negative, a passing submission
    earns [max(R - H*P, R // 4)], which is not negative; a submission that
    fails, or whose query does not execute, earns 0. *)
Theorem xp_earned_floor e sid c sql h now :
  0 <= xp_reward c -> 0 <= h ->
  let sub := (validate_submission e sid c sql h now).2 in
  (passed sub = true ->
     xp_earned sub = Z.max (xp_reward c - h * hint_penalty_xp c) (xp_reward c / 4) /\
     0 <= xp_earned sub) /\
  (passed sub = false -> xp_earned sub = 0) /\
  (success (execute_query (session_manager e) sid sql now).2 = false ->
     passed sub = false /\ xp_earned sub = 0).
Proof.
  intros HR Hh. run_submission.
  destruct (success result); simpl.
  - destruct (_validate_against_rules result _) as [[] fb]; simpl.
    + repeat split; try discriminate.
      pose proof (Z.div_pos (xp_reward c) 4 HR ltac:(lia)). lia.
    + repeat split; discriminate.
  - repeat split; discriminate.
Qed.

(** C7. When the submitted query executes, the rules are tried in the
    order they are declared: the verdict is a failure with the feedback of
    the first rule that fails, whatever the rules after it are, and a pass
    when every rule passes. *)
Theorem rules_checked_in_order e sid c sql h now :
  success (execute_query (session_manager e) sid sql now).2 = true ->
  let result := (execute_query (session_manager e) sid sql now).2 in
  let sub := (validate_submission e sid c sql h now).2 in
  (forall pre r post,
     validation_rules c = pre ++ r :: post ->
     Forall (fun r' => passes result r' = true) pre -> passes result r = false ->
     passed sub = false /\ feedback sub = (_check_rule result r).2) /\
  (Forall (fun r => passes result r = true) (validation_rules c) ->
     passed sub = true /\ feedback sub = "All validations passed! Great job!"%string).
Proof.
  intros Hexec result sub.
  destruct (validate_submission_executed e sid c sql h now Hexec) as (Hp & Hf & _).
  fold result sub in Hp, Hf. split.
  - intros pre r post Hrules Hpre Hr. rewrite Hp, Hf, Hrules.
    now rewrite (validate_stops_at_first_failure result pre r post Hpre Hr).
  - intros Hall. rewrite Hp, Hf. now rewrite (validate_all_pass result _ Hall).
Qed.

(** C1, as the code has it. Whenever the query executes,
    [validate_submission] attaches the result rows as [actual_output],
    for a passing submission as for a failing one; only a submission whose
    query did not execute has none. The rows of a passing submission are
    withheld one step later, by the submit route, whose response carries
    [actual_output] only when the submission did not pass. *)
Theorem actual_output_withheld_by_route e sid c sql h now :
  let result := (execute_query (session_manager e) sid sql now).2 in
  let sub := (validate_submission e sid c sql h now).2 in
  (success result = true -> actual_output sub = Some (rows result)) /\
  (success result = false -> actual_output sub = None) /\
  (passed sub = true -> resp_actual_output (response_of sub) = None) /\
  (passed sub = false -> resp_actual_output (response_of sub) = actual_output sub) /\
  (forall registry req, registry !! id c = Some c ->
     sql = routes.sql req -> h = req_hints_used req ->
     (submit_challenge registry e (id c) sid req now).2 = inr (response_of sub)).
Proof.
  intros result sub. repeat split.
  - intros Hexec. now destruct (validate_submission_executed e sid c sql h now Hexec) as (_ & _ & ?).
  - intros Hexec. now destruct (validate_submission_not_executed e sid c sql h now Hexec) as (_ & _ & ?).
  - intros Hp. unfold response_of. now rewrite Hp.
  - intros Hp. unfold response_of. now rewrite Hp.
  - intros registry req Hc -> ->. unfold submit_challenge. rewrite Hc.
    subst sub. destruct (validate_submission e sid c _ _ now) as [e' s]. reflexivity.
Qed.

(** C10. Grading and challenge setup leave the progress records alone:
    the table of [UserProgress] records after [validate_submission] and
    after [setup_challenge] is the table before. *)
Theorem grading_leaves_progress e sid c sql h now :
  _user_progress (validate_submission e sid c sql h now).1 = _user_progress e /\
  _user_progress (setup_challenge e sid c now).1 = _user_progress e.
Proof.
  split.
  - run_submission.
    destruct (negb (success result)); [reflexivity|].
    destruct (_validate_against_rules result _) as [p fb]. reflexivity.
  - unfold setup_challenge.
    destruct (reset_session _ sid now) as [m b].
    destruct (run_setup m sid _ now) as [m' r]. reflexivity.
Qed.

End Grading.

(** ** Progression *)

Section Progression.
Context `{LearnDB}.

Implicit Types (e : ChallengeEngine) (p : UserProgress) (b : Badge) (user today : string).

Lemma check_badge_keeps p b x :
  x ∈ earned_badges p -> x ∈ earned_badges (check_badge p b).
Proof.
  intros Hx. unfold check_badge.
  destruct (bool_decide _); [exact Hx|].
  destruct (badge_earned p b); [|exact Hx].
  simpl. apply elem_of_app. now left.
Qed.

(** A badge enters the earned list only through a branch that set
    [earned]. *)
Lemma check_badge_new p b x :
  x ∈ earned_badges (check_badge p b) ->
  x ∈ earned_badges p \/ (x = badge_id b /\ badge_earned p b = true).
Proof.
  unfold check_badge.
  destruct (bool_decide _); [now left|].
  destruct (badge_earned p b) eqn:Hb; [|now left].
  simpl. rewrite elem_of_app, list_elem_of_singleton. intros [Hx| ->]; auto.
Qed.

(** The loop does not touch the fields the criteria read. *)
Lemma badge_earned_check_badge p b b' :
  badge_earned (check_badge p b') b = badge_earned p b.
Proof.
  unfold check_badge.
  destruct (bool_decide _); [reflexivity|].
  destruct (badge_earned p b'); reflexivity.
Qed.

Lemma fold_check_badge_keeps (bs : list Badge) p x :
  x ∈ earned_badges p -> x ∈ earned_badges (fold_left check_badge bs p).
Proof.
  revert p. induction bs as [|b bs IH]; intros p Hx; simpl; [exact Hx|].
  apply IH, check_badge_keeps, Hx.
Qed.

Lemma fold_check_badge_new (bs : list Badge) p x :
  x ∈ earned_badges (fold_left check_badge bs p) ->
  x ∈ earned_badges p \/ exists b, b ∈ bs /\ x = badge_id b /\ badge_earned p b = true.
Proof.
  revert p. induction bs as [|b bs IH]; intros p Hx; simpl in Hx; [now left|].
  destruct (IH _ Hx) as [Hx'|(b' & Hb' & -> & He)].
  - destruct (check_badge_new _ _ _ Hx') as [?|[-> He]]; [now left|].
    right. exists b. split; [apply list_elem_of_here|auto].
  - right. exists b'. rewrite badge_earned_check_badge in He.
    split; [now apply list_elem_of_further|auto].
Qed.

Lemma fold_check_badge_awards (bs : list Badge) p b :
  b ∈ bs -> badge_earned p b = true ->
  badge_id b ∈ earned_badges (fold_left check_badge bs p).
Proof.
  revert p. induction bs as [|b' bs IH]; intros p Hb He; [now apply elem_of_nil in Hb|].
  simpl. apply elem_of_cons in Hb as [<-|Hb].
  - apply fold_check_badge_keeps. unfold check_badge.
    destruct (bool_decide _) eqn:Hin; [now apply bool_decide_eq_true in Hin|].
    rewrite He. simpl. apply elem_of_app. right. apply list_elem_of_here.
  - apply IH; [exact Hb|]. now rewrite badge_earned_check_badge.
Qed.

Lemma check_badges_unfold p : _check_badges p = fold_left check_badge BADGES p.
Proof. unfold _check_badges. reflexivity. Qed.

(** The part of the badge rule that the code carries out: a badge whose
    [earned] flag comes out true is in the earned list afterwards, and no
    badge is ever removed. *)
Lemma check_badges_awards p b :
  b ∈ BADGES -> badge_earned p b = true -> badge_id b ∈ earned_badges (_check_badges p).
Proof. rewrite check_badges_unfold. apply fold_check_badge_awards. Qed.

Lemma check_badges_keeps p x :
  x ∈ earned_badges p -> x ∈ earned_badges (_check_badges p).
Proof. rewrite check_badges_unfold. apply fold_check_badge_keeps. Qed.

(** The bonus of an awarded badge is added once, when it is appended. *)
Lemma check_badge_total_xp p b :
  total_xp (check_badge p b) =
  total_xp p +
  (if bool_decide (badge_id b ∈ earned_badges p) then 0
   else if badge_earned p b then xp_bonus b else 0).
Proof.
  unfold check_badge.
  destruct (bool_decide _); [lia|]. destruct (badge_earned p b); simpl; lia.
Qed.

(** The two criteria kinds without a branch leave [earned] false. *)
Lemma badge_earned_unbranched p b :
  criteria_type b = category_complete \/ criteria_type b = speed ->
  badge_earned p b = false.
Proof.
  destruct b as [i n d ic t v x]. unfold badge_earned. simpl.
  intros [Ht|Ht]; subst t; reflexivity.
Qed.

Lemma NoDup_fmap_inj {A B} (f : A -> B) (l : list A) (x y : A) :
  NoDup (f <$> l) -> x ∈ l -> y ∈ l -> f x = f y -> x = y.
Proof.
  induction l as [|a l IH]; intros Hnd Hx Hy Hf; [now apply elem_of_nil in Hx|].
  rewrite fmap_cons in Hnd. apply NoDup_cons in Hnd as [Ha Hnd].
  apply elem_of_cons in Hx as [->|Hx], Hy as [->|Hy]; auto.
  - destruct Ha. rewrite Hf. now apply list_elem_of_fmap_2.
  - destruct Ha. rewrite <- Hf. now apply list_elem_of_fmap_2.
Qed.

(** The ids of the badge table are pairwise different. *)
Lemma badge_ids_distinct b b' :
  b ∈ BADGES -> b' ∈ BADGES -> badge_id b = badge_id b' -> b = b'.
Proof.
  apply NoDup_fmap_inj.
  apply (bool_decide_unpack _). vm_compute. exact I.
Qed.

Lemma get_user_progress_returns e user :
  (get_user_progress e user).2 = progress_of e user.
Proof.
  unfold get_user_progress, progress_of.
  destruct (_user_progress e !! user); reflexivity.
Qed.

(** Looking a user up creates a record at most for that user and changes
    no record that exists. *)
Lemma get_user_progress_keeps e user u p :
  _user_progress e !! u = Some p ->
  _user_progress (get_user_progress e user).1 !! u = Some p.
Proof.
  intros Hu. unfold get_user_progress.
  destruct (_user_progress e !! user) eqn:Huser; [exact Hu|]. simpl.
  rewrite lookup_insert_ne; [exact Hu|]. intros ->. congruence.
Qed.

(** [update_progress] replaces the record of its user and no other. *)
Lemma update_progress_table e user sub today :
  _user_progress (update_progress e user sub today)
  = <[user := updated (progress_of e user) sub today]> (_user_progress e).
Proof.
  unfold update_progress, get_user_progress, progress_of.
  destruct (_user_progress e !! user); simpl; [reflexivity|].
  apply insert_insert_eq.
Qed.

Lemma update_progress_lookup e user sub today :
  _user_progress (update_progress e user sub today) !! user
  = Some (updated (progress_of e user) sub today).
Proof. rewrite update_progress_table. apply lookup_insert_eq. Qed.

(** A first pass goes through [record_pass], which ends in
    [_check_badges]. *)
Lemma updated_first_pass p sub today :
  passed sub = true -> challenge_id sub ∉ completed_challenges p ->
  exists q,
    updated p sub today = add_hints (_check_badges q) (hints_used sub) /\
    earned_badges q = earned_badges p /\
    completed_challenges q = completed_challenges p ++ [challenge_id sub] /\
    total_xp q = total_xp p + xp_earned sub.
Proof.
  intros Hpass Hnew. unfold updated. rewrite Hpass.
  rewrite (bool_decide_eq_false_2 _ Hnew). simpl.
  unfold record_pass. eexists. split; [reflexivity|]. simpl. auto.
Qed.

Lemma fold_check_badge_frame (bs : list Badge) p :
  completed_challenges (fold_left check_badge bs p) = completed_challenges p /\
  forall b, badge_earned (fold_left check_badge bs p) b = badge_earned p b.
Proof.
  revert p. induction bs as [|b' bs IH]; intros p; [split; reflexivity|].
  simpl. destruct (IH (check_badge p b')) as [-> Hb]. split.
  - unfold check_badge. destruct (bool_decide _); [reflexivity|].
    now destruct (badge_earned p b').
  - intros b. now rewrite Hb, badge_earned_check_badge.
Qed.

(** [_check_badges] leaves the completed list and the [earned] flags as
    they are. *)
Lemma check_badges_completed p :
  completed_challenges (_check_badges p) = completed_challenges p.
Proof. rewrite check_badges_unfold. apply fold_check_badge_frame. Qed.

Lemma badge_earned_check_badges p b :
  badge_earned (_check_badges p) b = badge_earned p b.
Proof. rewrite check_badges_unfold. apply fold_check_badge_frame. Qed.

Lemma badge_earned_add_hints p n b :
  badge_earned (add_hints p n) b = badge_earned p b.
Proof. reflexivity. Qed.

Lemma earned_badges_add_hints p n : earned_badges (add_hints p n) = earned_badges p.
Proof. reflexivity. Qed.

Lemma completed_add_hints p n :
  completed_challenges (add_hints p n) = completed_challenges p.
Proof. reflexivity. Qed.

(** The part of C2 that the code carries out. After a first pass, every
    badge of the table whose [earned] flag holds on the updated record is
    in the earned list. *)
Lemma first_pass_awards e user sub today b :
  passed sub = true ->
  challenge_id sub ∉ completed_challenges (progress_of e user) ->
  b ∈ BADGES ->
  exists p',
    _user_progress (update_progress e user sub today) !! user = Some p' /\
    (badge_earned p' b = true -> badge_id b ∈ earned_badges p').
Proof.
  intros Hpass Hnew Hb. eexists. split; [apply update_progress_lookup|].
  destruct (updated_first_pass _ sub today Hpass Hnew) as (q & -> & _).
  rewrite badge_earned_add_hints, badge_earned_check_badges, earned_badges_add_hints.
  now apply check_badges_awards.
Qed.

(** C2, where the code falls short of it. The loop of [_check_badges] has
    a branch for the challenge-count, streak and query-count criteria only.
    A badge of [BADGES] whose criterion is category completion or solve
    speed ("select_master", "join_expert", "speed_demon") is never added:
    when [update_progress] records a first pass and the badge was not
    earned before, it is not earned after, whatever the updated progress
    holds. *)
Theorem category_and_speed_badges_never_awarded e user sub today b :
  passed sub = true ->
  challenge_id sub ∉ completed_challenges (progress_of e user) ->
  b ∈ BADGES ->
  criteria_type b = category_complete \/ criteria_type b = speed ->
  badge_id b ∉ earned_badges (progress_of e user) ->
  exists p',
    _user_progress (update_progress e user sub today) !! user = Some p' /\
    completed_challenges p'
      = completed_challenges (progress_of e user) ++ [challenge_id sub] /\
    badge_id b ∉ earned_badges p'.
Proof.
  intros Hpass Hnew Hb Hcrit Hnot. eexists. split; [apply update_progress_lookup|].
  destruct (updated_first_pass _ sub today Hpass Hnew) as (q & -> & Hq & Hdone & _).
  rewrite completed_add_hints, check_badges_completed, earned_badges_add_hints.
  split; [exact Hdone|].
  intros Hin. rewrite check_badges_unfold in Hin.
  apply fold_check_badge_new in Hin as [Hin|(b' & Hb' & Hid & He)].
  - apply Hnot. now rewrite <- Hq.
  - rewrite (badge_ids_distinct b b' Hb Hb' Hid) in Hcrit.
    now rewrite (badge_earned_unbranched q b' Hcrit) in He.
Qed.

(** C6. When the challenge of a passing submission is already in the
    user's completed list, [update_progress] leaves total experience as it
    was, and with it the level, both streaks, the last activity date, the
    completed list and the earned badges; only the hint count moves. *)
Theorem repeat_pass_earns_nothing e user sub today p :
  _user_progress e !! user = Some p ->
  passed sub = true ->
  challenge_id sub ∈ completed_challenges p ->
  exists p',
    _user_progress (update_progress e user sub today) !! user = Some p' /\
    total_xp p' = total_xp p /\
    current_level p' = current_level p /\
    current_streak p' = current_streak p /\
    longest_streak p' = longest_streak p /\
    last_activity_date p' = last_activity_date p /\
    completed_challenges p' = completed_challenges p /\
    earned_badges p' = earned_badges p /\
    progress_hints_used p' = progress_hints_used p + hints_used sub.
Proof.
  intros Hp Hpass Hdone. eexists. split; [apply update_progress_lookup|].
  unfold progress_of, updated. rewrite Hp, Hpass. simpl.
  rewrite (bool_decide_eq_true_2 _ Hdone). simpl. repeat split; reflexivity.
Qed.

End Progression.

(** ** The properties at work on the small engine *)

Section Instances.
Import Demo.

Example rows_equal_folds_case :
  _rows_equal [("Name"%string, VStr "Apple")] [("name"%string, VStr "apple")] false = true.
Proof. vm_compute. reflexivity. Qed.

(** The example of the specification: the rule [row-count == 3] against
    two rows. *)
Example row_count_feedback :
  _check_rule (mkQueryResult true [toy_row 1; toy_row 2] ["id"; "name"]%string 2 None fzero)
    (mkRule ROW_COUNT 3 false false)
  = (false, "Expected 3 rows, got 2"%string).
Proof. vm_compute. reflexivity. Qed.

(** C1, as stated, fails: a submission that executes and passes every
    rule comes back from [validate_submission] with its rows attached. *)
Lemma passing_submission_carries_rows :
  let sub := (validate_submission engine3 "s1" count3 "select" 0 "t4").2 in
  success (execute_query (session_manager engine3) "s1" "select" "t4").2 = true /\
  passed sub = true /\
  actual_output sub = Some [toy_row 1; toy_row 2; toy_row 3] /\
  ~ (passed sub = true -> actual_output sub = None).
Proof.
  vm_compute. repeat split; try reflexivity.
  intros Hnone. specialize (Hnone eq_refl). discriminate Hnone.
Qed.

Lemma actual_output_withheld_by_route_witness :
  actual_output (validate_submission engine3 "s1" count3 "select" 0 "t4").2
    = Some [toy_row 1; toy_row 2; toy_row 3] /\
  resp_actual_output
    (response_of (validate_submission engine3 "s1" count3 "select" 0 "t4").2) = None.
Proof.
  pose proof (actual_output_withheld_by_route engine3 "s1" count3 "select" 0 "t4")
    as (Hexec & _ & Hpass & _).
  split.
  - rewrite Hexec; vm_compute; reflexivity.
  - apply Hpass. vm_compute. reflexivity.
Defined.

Lemma xp_earned_floor_witness :
  xp_earned (validate_submission engine3 "s1" count3 "select" 7 "t4").2
    = Z.max (10 - 7 * 5) (10 / 4) /\
  0 <= xp_earned (validate_submission engine3 "s1" count3 "select" 7 "t4").2.
Proof.
  apply (xp_earned_floor engine3 "s1" count3 "select" 7 "t4").
  - simpl. lia.
  - lia.
  - vm_compute. reflexivity.
Defined.

Lemma rules_checked_in_order_witness :
  passed (validate_submission engine3 "s1" count2 "select" 0 "t4").2 = false /\
  feedback (validate_submission engine3 "s1" count2 "select" 0 "t4").2
    = "Expected 2 rows, got 3"%string.
Proof.
  assert (success (execute_query (session_manager engine3) "s1" "select" "t4").2 = true)
    as Hexec by (vm_compute; reflexivity).
  destruct (rules_checked_in_order engine3 "s1" count2 "select" 0 "t4" Hexec) as [Hfirst _].
  destruct (Hfirst [mkRule ROW_COUNT 3 false false] (mkRule ROW_COUNT 2 false false)
              [mkRule ROW_COUNT 5 false false]) as [Hp Hf].
  - reflexivity.
  - constructor; [vm_compute; reflexivity | constructor].
  - vm_compute. reflexivity.
  - split; [exact Hp|]. rewrite Hf. vm_compute. reflexivity.
Defined.

Lemma history_cap_zero_never_trims_witness :
  exists items,
    history_of (run_queries manager_cap0 "s1" ["select"; "insert"]%string "t1") "s1"
      = Some (query_history session1 ++ items) /\
    hi_sql <$> items = ["select"; "insert"]%string /\
    max_history_items manager_cap0 < len (query_history session1 ++ items).
Proof.
  destruct (history_cap_zero_never_trims manager_cap0 "s1" ["select"; "insert"]%string
              "t1" session1) as (items & Hh & Hsql & Hlen).
  - reflexivity.
  - vm_compute. reflexivity.
  - reflexivity.
  - exists items. repeat split; [exact Hh | exact Hsql | apply Hlen; discriminate].
Defined.

(** C5 at the failing input: a cap of 0, one query, one item in the
    history. *)
Example history_exceeds_cap_zero :
  max_history_items manager_cap0 = 0 /\
  length <$> history_of (execute_query manager_cap0 "s1" "select" "t1").1 "s1" = Some 1%nat.
Proof. vm_compute. split; reflexivity. Qed.

(** With a cap of 2, three queries leave the last two. *)
Example history_keeps_last_two :
  exists items,
    history_of (run_queries manager_cap2 "s1" ["insert"; "select"; "boom"]%string "t1") "s1"
      = Some items /\
    hi_sql <$> items = ["select"; "boom"]%string.
Proof. vm_compute. eexists. split; reflexivity. Qed.

(** The example of the specification: two queries, the first a syntax
    error, leave two items in the order run, each with its own flag. *)
Example history_two_queries :
  exists items,
    history_of (run_queries manager1 "s1" ["selec"; "select"]%string "t1") "s1"
      = Some items /\
    (fun item => (hi_sql item, hi_success item)) <$> items
      = [("selec"%string, false); ("select"%string, true)].
Proof. vm_compute. eexists. split; reflexivity. Qed.


Lemma repeat_pass_earns_nothing_witness :
  exists p',
    _user_progress (update_progress engine_done "u" (pass_for "demo_001") "2024-01-02")
      !! "u"%string = Some p' /\
    total_xp p' = 10 /\ current_level p' = 1 /\ current_streak p' = 1.
Proof.
  destruct (repeat_pass_earns_nothing engine_done "u" (pass_for "demo_001") "2024-01-02"
              progress_done) as (p' & Hp' & Hxp & Hlvl & Hstreak & _).
  - vm_compute. reflexivity.
  - reflexivity.
  - simpl. apply list_elem_of_here.
  - exists p'. auto.
Defined.

(** C2 at the failing input: after a pass on each challenge of the
    select_basics category, the only badge earned is the one for the first
    challenge. *)
Example select_master_not_awarded :
  _user_progress engine_select !! "u"%string = Some progress_select /\
  completed_challenges progress_select = select_basics_ids /\
  earned_badges progress_select = ["first_challenge"%string].
Proof. vm_compute. repeat split; reflexivity. Qed.

Lemma category_and_speed_badges_never_awarded_witness :
  exists p',
    _user_progress (update_progress engine_select2 "u" (pass_for "select_003") "2024-01-01")
      !! "u"%string = Some p' /\
    completed_challenges p' = select_basics_ids /\
    "select_master"%string ∉ earned_badges p'.
Proof.
  assert (progress_of engine_select2 "u" = progress_select2) as Hp
    by (vm_compute; reflexivity).
  destruct (category_and_speed_badges_never_awarded engine_select2 "u"
              (pass_for "select_003") "2024-01-01" select_master)
    as (p' & Hp' & Hdone & Hnot).
  - reflexivity.
  - rewrite Hp. apply (bool_decide_unpack _). vm_compute. exact I.
  - unfold BADGES, select_master. do 4 apply list_elem_of_further. apply list_elem_of_here.
  - left. reflexivity.
  - rewrite Hp. apply (bool_decide_unpack _). vm_compute. exact I.
  - exists p'. rewrite Hp in Hdone. auto.
Defined.

End Instances.

(* ===================================================================== *)
(** * Further properties of the code *)
(* ===================================================================== *)

(** ** What the rules accept *)

Section RuleSemantics.
Context `{PyBuiltins}.

Implicit Types (A B : Row) (cs : bool) (result : QueryResult).

Lemma fsub_diag_not_far (f : spec_float) :
  SFltb tolerance (SFabs (fsub f f)) = false.
Proof.
  unfold fsub. destruct f as [s|s| |s m e]; simpl; try (destruct s; reflexivity).
  - reflexivity.
  - rewrite Z.sub_diag. reflexivity.
Qed.

Lemma values_differ_refl cs (v : value) : values_differ cs v v = false.
Proof.
  unfold values_differ, py_ne. destruct v as [|b|n|f|s]; simpl.
  - reflexivity.
  - now rewrite Z.eqb_refl.
  - now rewrite Z.eqb_refl.
  - apply fsub_diag_not_far.
  - destruct cs; simpl; now rewrite String.eqb_refl.
Qed.

(** X1. Every row equals itself, under either case flag: also a row with
    a NaN or an infinity in it, since the float test is "not further apart
    than the tolerance". *)
Theorem rows_equal_refl A cs : _rows_equal A A cs = true.
Proof.
  unfold _rows_equal. rewrite bool_decide_eq_true_2 by reflexivity. simpl.
  apply forallb_forall. intros [k v] Hin.
  apply list_elem_of_In, elem_of_map_to_list in Hin. simpl. rewrite Hin. simpl.
  now rewrite values_differ_refl.
Qed.

Lemma normalize_app A B :
  normalize (A ++ B) = fold_left (fun acc kv => <[lower kv.1 := kv.2]> acc) B (normalize A).
Proof. unfold normalize. apply fold_left_app. Qed.

Lemma normalize_list_to_map A :
  normalize A = list_to_map (reverse ((fun kv : string * value => (lower kv.1, kv.2)) <$> A)).
Proof.
  induction A as [|[k v] A IH] using rev_ind; [reflexivity|].
  rewrite normalize_app, fmap_app. simpl. rewrite reverse_snoc. simpl. now rewrite IH.
Qed.

(** X2. A row is a dictionary: listing its entries in another order does
    not change what it equals, as long as no two keys fold to the same
    name. *)
Theorem rows_equal_entry_order A A' B cs :
  NoDup (lower <$> A.*1) -> A ≡ₚ A' ->
  _rows_equal A B cs = _rows_equal A' B cs /\ _rows_equal B A cs = _rows_equal B A' cs.
Proof.
  intros Hnd Hperm.
  assert (normalize A = normalize A') as Hnorm.
  { rewrite !normalize_list_to_map. apply list_to_map_proper.
    - rewrite reverse_Permutation, <- list_fmap_compose.
      now rewrite <- list_fmap_compose in Hnd.
    - now rewrite !reverse_Permutation, Hperm. }
  unfold _rows_equal. rewrite Hnorm. split; reflexivity.
Qed.

(** The two loops of the unordered checks. *)
Lemma found_iff cs (actual_rows : list Row) (expected : Row) :
  found cs actual_rows expected = true <->
  exists actual, actual ∈ actual_rows /\ _rows_equal expected actual cs = true.
Proof.
  unfold found. rewrite existsb_exists. split.
  - intros (a & Hin & Heq). exists a. split; [now apply list_elem_of_In|exact Heq].
  - intros (a & Hin & Heq). exists a. split; [now apply list_elem_of_In|exact Heq].
Qed.

Lemma none_missing_iff cs (expected_rows actual_rows : list Row) :
  find (fun expected => negb (found cs actual_rows expected)) expected_rows = None <->
  forall expected, expected ∈ expected_rows ->
    exists actual, actual ∈ actual_rows /\ _rows_equal expected actual cs = true.
Proof.
  split.
  - intros Hnone e He. apply found_iff.
    apply list_elem_of_In in He.
    pose proof (find_none _ _ Hnone e He) as Hf. simpl in Hf.
    now apply negb_false_iff in Hf.
  - intros Hall. destruct (find _ expected_rows) as [e|] eqn:Hfind; [|reflexivity].
    apply find_some in Hfind as [He Hf]. apply list_elem_of_In in He.
    apply negb_true_iff in Hf. apply Hall, found_iff in He. congruence.
Qed.

Lemma first_mismatch_none cs (i : Z) (expected_rows actual_rows : list Row) :
  length expected_rows = length actual_rows ->
  (first_mismatch cs i (zip expected_rows actual_rows) = None <->
   Forall2 (fun e a => _rows_equal e a cs = true) expected_rows actual_rows).
Proof.
  revert i actual_rows.
  induction expected_rows as [|e es IH]; intros i [|a acts] Hlen; try discriminate Hlen.
  - split; [constructor|reflexivity].
  - simpl. destruct (_rows_equal e a cs) eqn:Hea; simpl.
    + rewrite IH by (simpl in Hlen; lia). split.
      * now constructor.
      * intros HF. now apply Forall2_cons_1 in HF as [_ ?].
    + split; [discriminate|]. intros HF. apply Forall2_cons_1 in HF as [Hea' _]. congruence.
Qed.

Lemma len_eqb_iff {X Y} (l : list X) (k : list Y) : (len l =? len k) = true <-> length l = length k.
Proof. unfold len. rewrite Z.eqb_eq. lia. Qed.

(** X3. EXACT_MATCH with [order_matters=True] passes exactly when the
    result has as many rows as expected and each row equals the expected
    row at its position. *)
Theorem exact_match_ordered_iff result (expected_rows : list Row) cs :
  passes result (mkRule EXACT_MATCH expected_rows true cs) = true <->
  Forall2 (fun e a => _rows_equal e a cs = true) expected_rows (rows result).
Proof.
  unfold passes, _check_rule. simpl.
  destruct (len (rows result) =? len expected_rows) eqn:Hlen; simpl.
  - apply len_eqb_iff in Hlen. symmetry in Hlen.
    rewrite <- (first_mismatch_none cs 0 _ _ Hlen).
    destruct (first_mismatch cs 0 _); simpl; split; congruence.
  - split; [discriminate|]. intros HF. apply Forall2_length in HF.
    symmetry in HF. apply len_eqb_iff in HF. congruence.
Qed.

Lemma exact_unordered_passes result (expected_rows : list Row) cs :
  passes result (mkRule EXACT_MATCH expected_rows false cs) = true <->
  length (rows result) = length expected_rows /\
  forall expected, expected ∈ expected_rows ->
    exists actual, actual ∈ rows result /\ _rows_equal expected actual cs = true.
Proof.
  unfold passes, _check_rule. simpl.
  destruct (len (rows result) =? len expected_rows) eqn:Hlen; simpl.
  - apply len_eqb_iff in Hlen. rewrite <- none_missing_iff.
    destruct (find _ expected_rows); simpl; split; try tauto; try discriminate.
    intros [_ ?]. discriminate.
  - split; [discriminate|]. intros [Hl _]. apply len_eqb_iff in Hl. congruence.
Qed.

Lemma contains_rows_passes result (expected_rows : list Row) (om cs : bool) :
  passes result (mkRule CONTAINS_ROWS expected_rows om cs) = true <->
  forall expected, expected ∈ expected_rows ->
    exists actual, actual ∈ rows result /\ _rows_equal expected actual cs = true.
Proof.
  unfold passes, _check_rule. simpl. rewrite <- none_missing_iff.
  destruct (find _ expected_rows); simpl; split; congruence.
Qed.

(** X4. Without order, EXACT_MATCH passes exactly when the row counts
    agree and every expected row equals some row of the result; and
    CONTAINS_ROWS asks for the second half only. Neither counts how often
    a row occurs. *)
Theorem unordered_rules_iff result (expected_rows : list Row) (om cs : bool) :
  let all_found :=
    forall expected, expected ∈ expected_rows ->
      exists actual, actual ∈ rows result /\ _rows_equal expected actual cs = true in
  (passes result (mkRule EXACT_MATCH expected_rows false cs) = true <->
     length (rows result) = length expected_rows /\ all_found) /\
  (passes result (mkRule CONTAINS_ROWS expected_rows om cs) = true <-> all_found).
Proof.
  split; [apply exact_unordered_passes | apply contains_rows_passes].
Qed.

Lemma found_perm cs (rows1 rows2 : list Row) (expected : Row) :
  rows1 ≡ₚ rows2 -> found cs rows1 expected = found cs rows2 expected.
Proof.
  intros Hperm. apply eq_true_iff_eq. rewrite !found_iff.
  split; intros (a & Hin & Heq); exists a; split; auto;
    [now rewrite <- Hperm | now rewrite Hperm].
Qed.

(** X5. The unordered checks do not look at the order of the result rows:
    two results with the same rows in another order get the same verdict
    and the same feedback. *)
Theorem unordered_rules_ignore_row_order result1 result2 (expected_rows : list Row)
  (om cs : bool) :
  rows result1 ≡ₚ rows result2 ->
  _check_rule result1 (mkRule EXACT_MATCH expected_rows false cs)
    = _check_rule result2 (mkRule EXACT_MATCH expected_rows false cs) /\
  _check_rule result1 (mkRule CONTAINS_ROWS expected_rows om cs)
    = _check_rule result2 (mkRule CONTAINS_ROWS expected_rows om cs).
Proof.
  intros Hperm. unfold _check_rule. simpl.
  assert (len (rows result1) = len (rows result2)) as Hlen.
  { unfold len. now rewrite Hperm. }
  assert (find (fun e => negb (found cs (rows result1) e)) expected_rows
          = find (fun e => negb (found cs (rows result2) e)) expected_rows) as Hfind.
  { induction expected_rows as [|e es IH]; [reflexivity|]. simpl.
    rewrite (found_perm cs _ _ e Hperm), IH. reflexivity. }
  rewrite Hlen, Hfind. split; reflexivity.
Qed.

(** X6. CONTAINS_ROWS ignores extra rows: a result that passes still
    passes when rows are added to it. *)
Theorem contains_rows_extra_rows result1 result2 (expected_rows : list Row) (om cs : bool) :
  rows result1 ⊆ rows result2 ->
  passes result1 (mkRule CONTAINS_ROWS expected_rows om cs) = true ->
  passes result2 (mkRule CONTAINS_ROWS expected_rows om cs) = true.
Proof.
  intros Hsub Hpass.
  apply contains_rows_passes. rewrite contains_rows_passes in Hpass.
  intros e He. destruct (Hpass e He) as (a & Ha & Heq). exists a. split; auto.
Qed.

(** X7. COLUMN_CHECK compares the two sets of folded column names: it
    passes exactly when each expected name, folded, is a folded column of
    the result and the other way round; order and repetition play no
    part. *)
Theorem column_check_iff result (expected : list string) (om cs : bool) :
  passes result (mkRule COLUMN_CHECK expected om cs) = true <->
  (forall name, name ∈ map lower expected <-> name ∈ map lower (columns result)).
Proof.
  unfold passes, _check_rule. simpl.
  destruct (decide ((list_to_set (map lower expected) : gset string)
                    = list_to_set (map lower (columns result)))) as [Heq|Hne].
  - rewrite bool_decide_eq_true_2 by exact Heq. simpl. split; [|reflexivity].
    intros _ name.
    rewrite <- (elem_of_list_to_set (C := gset string) name (map lower expected)), Heq.
    apply elem_of_list_to_set.
  - rewrite bool_decide_eq_false_2 by exact Hne. simpl. split; [discriminate|].
    intros Hall. destruct Hne. apply set_eq. intros name.
    rewrite !elem_of_list_to_set. apply Hall.
Qed.

End RuleSemantics.

(** ** Levels *)

Section Levels.

Implicit Types (p : UserProgress) (xp : Z).

(** Decide the threshold tests of the level table one after the other. *)
Ltac level_cases :=
  repeat match goal with
  | |- context [?a >=? ?b] =>
      let Hc := fresh "Hc" in
      destruct (a >=? b) eqn:Hc;
      [apply Z.geb_le in Hc | rewrite Z.geb_leb in Hc; apply Z.leb_gt in Hc];
      try (exfalso; lia)
  | |- context [?a >? ?b] =>
      let Hc := fresh "Hc" in
      destruct (a >? b) eqn:Hc;
      [apply Z.gtb_lt in Hc | rewrite Z.gtb_ltb in Hc; apply Z.ltb_ge in Hc];
      try (exfalso; lia)
  end.

(** X8. The two ways the code derives a level agree: the level that
    [get_level_info] finds, searching the table from the top, is the one
    [_calculate_level] computes from the bottom; it lies between 1 and 10,
    and its threshold is within the experience held. *)
Theorem level_functions_agree p :
  level (get_level_info p) = _calculate_level (total_xp p) /\
  1 <= _calculate_level (total_xp p) <= 10 /\
  (0 <= total_xp p -> xp_required (get_level_info p) <= total_xp p).
Proof.
  unfold get_level_info, _calculate_level, LEVELS. simpl.
  level_cases; simpl; repeat split; lia.
Qed.

(** X9. More experience never gives a lower level. *)
Theorem calculate_level_monotone xp xp' :
  xp <= xp' -> _calculate_level xp <= _calculate_level xp'.
Proof.
  intros Hle. unfold _calculate_level, LEVELS. simpl.
  level_cases; lia.
Qed.

(** X10. Below the top threshold, [xp_to_next_level] is positive and is
    exactly what is missing to the next level: with that much more
    experience the level is one higher, with one point less it is not.
    From the top threshold on it is 0. *)
Theorem xp_to_next_level_spec p :
  (total_xp p < 5000 ->
     0 < xp_to_next_level p /\
     _calculate_level (total_xp p + xp_to_next_level p) = _calculate_level (total_xp p) + 1 /\
     _calculate_level (total_xp p + xp_to_next_level p - 1) = _calculate_level (total_xp p)) /\
  (5000 <= total_xp p -> xp_to_next_level p = 0).
Proof.
  unfold xp_to_next_level, get_level_info, _calculate_level, LEVELS. simpl.
  split; intros Hxp.
  - destruct (total_xp p >=? 5000) eqn:H5; [apply Z.geb_le in H5; lia|].
    destruct (total_xp p >=? 3600) eqn:H9; simpl.
    { apply Z.geb_le in H9. rewrite Z.geb_leb in H5. apply Z.leb_gt in H5.
      repeat split; try lia; level_cases; lia. }
    destruct (total_xp p >=? 2800) eqn:H8; simpl.
    { apply Z.geb_le in H8. rewrite Z.geb_leb in H9. apply Z.leb_gt in H9.
      repeat split; try lia; level_cases; lia. }
    destruct (total_xp p >=? 2100) eqn:H7; simpl.
    { apply Z.geb_le in H7. rewrite Z.geb_leb in H8. apply Z.leb_gt in H8.
      repeat split; try lia; level_cases; lia. }
    destruct (total_xp p >=? 1500) eqn:H6; simpl.
    { apply Z.geb_le in H6. rewrite Z.geb_leb in H7. apply Z.leb_gt in H7.
      repeat split; try lia; level_cases; lia. }
    destruct (total_xp p >=? 1000) eqn:H4; simpl.
    { apply Z.geb_le in H4. rewrite Z.geb_leb in H6. apply Z.leb_gt in H6.
      repeat split; try lia; level_cases; lia. }
    destruct (total_xp p >=? 600) eqn:H3; simpl.
    { apply Z.geb_le in H3. rewrite Z.geb_leb in H4. apply Z.leb_gt in H4.
      repeat split; try lia; level_cases; lia. }
    destruct (total_xp p >=? 300) eqn:H2; simpl.
    { apply Z.geb_le in H2. rewrite Z.geb_leb in H3. apply Z.leb_gt in H3.
      repeat split; try lia; level_cases; lia. }
    destruct (total_xp p >=? 100) eqn:H1; simpl.
    { apply Z.geb_le in H1. rewrite Z.geb_leb in H2. apply Z.leb_gt in H2.
      repeat split; try lia; level_cases; lia. }
    rewrite Z.geb_leb in H1. apply Z.leb_gt in H1.
    destruct (total_xp p >=? 0) eqn:H0; simpl;
      repeat split; try lia; level_cases; lia.
  - replace (total_xp p >=? 5000) with true by (symmetry; apply Z.geb_le; lia).
    reflexivity.
Qed.

End Levels.

(** ** Recording a submission *)

Section Recording.
Context `{LearnDB}.

Implicit Types (e : ChallengeEngine) (p q : UserProgress) (b : Badge).
Implicit Types (user today : string) (sub : ChallengeSubmission).

Lemma badges_no_bonus : Forall (fun b => xp_bonus b = 0) BADGES.
Proof. unfold BADGES. repeat constructor. Qed.

Lemma check_badge_fields b p :
  xp_bonus b = 0 ->
  total_xp (check_badge p b) = total_xp p /\
  current_level (check_badge p b) = current_level p /\
  current_streak (check_badge p b) = current_streak p /\
  longest_streak (check_badge p b) = longest_streak p /\
  last_activity_date (check_badge p b) = last_activity_date p /\
  progress_hints_used (check_badge p b) = progress_hints_used p /\
  (NoDup (earned_badges p) -> NoDup (earned_badges (check_badge p b))).
Proof.
  intros Hb. unfold check_badge.
  destruct (bool_decide (badge_id b ∈ earned_badges p)) eqn:Hin; [repeat split; auto|].
  destruct (badge_earned p b); simpl; [|repeat split; auto].
  rewrite Hb. repeat split; try lia. intros Hp.
  apply NoDup_app. split; [exact Hp|]. split; [|apply NoDup_singleton].
  intros x Hx Hx'. apply list_elem_of_singleton in Hx'. subst x.
  apply bool_decide_eq_false in Hin. contradiction.
Qed.

Lemma fold_check_badge_fields (bs : list Badge) p :
  Forall (fun b => xp_bonus b = 0) bs ->
  total_xp (fold_left check_badge bs p) = total_xp p /\
  current_level (fold_left check_badge bs p) = current_level p /\
  current_streak (fold_left check_badge bs p) = current_streak p /\
  longest_streak (fold_left check_badge bs p) = longest_streak p /\
  last_activity_date (fold_left check_badge bs p) = last_activity_date p /\
  progress_hints_used (fold_left check_badge bs p) = progress_hints_used p /\
  (NoDup (earned_badges p) -> NoDup (earned_badges (fold_left check_badge bs p))).
Proof.
  intros Hbs. revert p. induction Hbs as [|b bs Hb _ IH]; intros p; simpl.
  - repeat split; auto.
  - destruct (IH (check_badge p b)) as (-> & -> & -> & -> & -> & -> & Hnd).
    destruct (check_badge_fields b p Hb) as (-> & -> & -> & -> & -> & -> & Hnd').
    repeat split; auto.
Qed.

Lemma check_badges_fields p :
  total_xp (_check_badges p) = total_xp p /\
  current_level (_check_badges p) = current_level p /\
  current_streak (_check_badges p) = current_streak p /\
  longest_streak (_check_badges p) = longest_streak p /\
  last_activity_date (_check_badges p) = last_activity_date p /\
  progress_hints_used (_check_badges p) = progress_hints_used p /\
  (NoDup (earned_badges p) -> NoDup (earned_badges (_check_badges p))).
Proof. rewrite check_badges_unfold. apply fold_check_badge_fields, badges_no_bonus. Qed.

Lemma fold_check_badge_fixed (bs : list Badge) p :
  (forall b, b ∈ bs -> badge_earned p b = true -> badge_id b ∈ earned_badges p) ->
  fold_left check_badge bs p = p.
Proof.
  induction bs as [|b bs IH]; intros Hall; [reflexivity|]. simpl.
  assert (check_badge p b = p) as ->.
  { unfold check_badge. destruct (bool_decide _) eqn:Hin; [reflexivity|].
    destruct (badge_earned p b) eqn:He; [|reflexivity].
    apply bool_decide_eq_false in Hin. destruct Hin.
    apply Hall; [apply list_elem_of_here|exact He]. }
  apply IH. intros b' Hb'. apply Hall. now apply list_elem_of_further.
Qed.

(** X11. Awarding is one-time: a second pass of [_check_badges] over a
    record changes nothing, so no badge is appended twice and no bonus is
    added twice. *)
Theorem check_badges_idempotent p :
  _check_badges (_check_badges p) = _check_badges p.
Proof.
  rewrite (check_badges_unfold (_check_badges p)).
  apply fold_check_badge_fixed. intros b Hb He.
  rewrite badge_earned_check_badges in He. now apply check_badges_awards.
Qed.

(** X12. [update_progress] writes the record of its user only: every
    other user's record is the one that was there. *)
Theorem update_progress_other_users e user sub today other :
  other <> user ->
  _user_progress (update_progress e user sub today) !! other = _user_progress e !! other.
Proof.
  intros Hne. rewrite update_progress_table. now apply lookup_insert_ne.
Qed.


Lemma add_hints_fields p n :
  total_xp (add_hints p n) = total_xp p /\
  current_level (add_hints p n) = current_level p /\
  current_streak (add_hints p n) = current_streak p /\
  longest_streak (add_hints p n) = longest_streak p /\
  last_activity_date (add_hints p n) = last_activity_date p /\
  progress_hints_used (add_hints p n) = progress_hints_used p + n.
Proof. repeat split; reflexivity. Qed.

(** The record a first pass hands to [_check_badges]. *)
Lemma first_pass_record p sub today :
  passed sub = true -> challenge_id sub ∉ completed_challenges p ->
  exists q,
    updated p sub today = add_hints (_check_badges q) (hints_used sub) /\
    total_xp q = total_xp p + xp_earned sub /\
    current_level q = _calculate_level (total_xp p + xp_earned sub) /\
    current_streak q <= longest_streak q /\
    last_activity_date q = Some today /\
    completed_challenges q = completed_challenges p ++ [challenge_id sub] /\
    earned_badges q = earned_badges p /\
    progress_hints_used q = progress_hints_used p.
Proof.
  intros Hpass Hnew. unfold updated. rewrite Hpass.
  rewrite (bool_decide_eq_false_2 _ Hnew). simpl.
  unfold record_pass. eexists. split; [reflexivity|]. simpl.
  repeat split; try reflexivity. lia.
Qed.

(** X14. A first pass adds exactly the reward of the submission to the
    total experience (the badges of the table carry no bonus), appends
    the challenge to the completed list, and leaves the level that of the
    new total. *)
Theorem first_pass_accounting e user sub today :
  passed sub = true ->
  challenge_id sub ∉ completed_challenges (progress_of e user) ->
  exists p',
    _user_progress (update_progress e user sub today) !! user = Some p' /\
    total_xp p' = total_xp (progress_of e user) + xp_earned sub /\
    current_level p' = _calculate_level (total_xp p') /\
    completed_challenges p'
      = completed_challenges (progress_of e user) ++ [challenge_id sub] /\
    last_activity_date p' = Some today /\
    progress_hints_used p' = progress_hints_used (progress_of e user) + hints_used sub.
Proof.
  intros Hpass Hnew. eexists. split; [apply update_progress_lookup|].
  destruct (first_pass_record _ sub today Hpass Hnew)
    as (q & -> & Hxp & Hlvl & _ & Hdate & Hdone & _ & Hhints).
  destruct (add_hints_fields (_check_badges q) (hints_used sub))
    as (-> & -> & _ & _ & -> & ->).
  destruct (check_badges_fields q) as (-> & -> & _ & _ & -> & -> & _).
  rewrite completed_add_hints, check_badges_completed.
  rewrite Hxp, Hlvl, Hdate, Hdone, Hhints. repeat split; reflexivity.
Qed.

Lemma updated_ok p sub today : progress_ok p -> progress_ok (updated p sub today).
Proof.
  intros (Hdone & Hbadges & Hstreak & Hlevel).
  destruct (passed sub) eqn:Hpass.
  - destruct (decide (challenge_id sub ∈ completed_challenges p)) as [Hin|Hnew].
    + unfold updated. rewrite Hpass, (bool_decide_eq_true_2 _ Hin). simpl.
      repeat split; assumption.
    + destruct (first_pass_record p sub today Hpass Hnew)
        as (q & -> & Hxp & Hlvl & Hst & _ & Hq & Hb & _).
      unfold progress_ok.
      destruct (add_hints_fields (_check_badges q) (hints_used sub))
        as (-> & -> & -> & -> & _ & _).
      destruct (check_badges_fields q) as (-> & -> & -> & -> & _ & _ & Hnd).
      rewrite completed_add_hints, check_badges_completed, earned_badges_add_hints.
      rewrite Hq, Hlvl, Hxp. repeat split.
      * apply NoDup_app. split; [exact Hdone|]. split; [|apply NoDup_singleton].
        intros x Hx Hx'. apply list_elem_of_singleton in Hx'. now subst x.
      * apply Hnd. now rewrite Hb.
      * exact Hst.
  - unfold updated. rewrite Hpass. simpl. repeat split; assumption.
Qed.

(** X15. The records keep their shape: if no record of the engine lists a
    challenge or a badge twice, has its longest streak below the current
    one, or a level other than that of its experience, the same holds
    after [update_progress], whatever the submission; and it holds for
    the record a new user starts with. *)
Theorem update_progress_keeps_records_ok e user sub today :
  engine_ok e ->
  engine_ok (update_progress e user sub today) /\ progress_ok (new_progress user).
Proof.
  assert (progress_ok (new_progress user)) as Hnew.
  { unfold progress_ok, new_progress. simpl.
    split; [constructor|]. split; [constructor|]. split; [lia|]. reflexivity. }
  intros Hok. split; [|exact Hnew].
  intros u p. rewrite update_progress_table.
  destruct (decide (user = u)) as [<-|Hne].
  - rewrite lookup_insert_eq. intros [= <-]. apply updated_ok.
    unfold progress_of. destruct (_user_progress e !! user) as [p0|] eqn:Hp0; simpl.
    + now apply (Hok user).
    + exact Hnew.
  - rewrite lookup_insert_ne by exact Hne. apply Hok.
Qed.

(** X16. Nothing earned is taken back: after [update_progress] every
    completed challenge and every badge of the record is still there, and
    when the reward of the submission is not negative the total
    experience is not lower. *)
Theorem update_progress_monotone e user sub today :
  0 <= xp_earned sub ->
  exists p',
    _user_progress (update_progress e user sub today) !! user = Some p' /\
    completed_challenges (progress_of e user) ⊆ completed_challenges p' /\
    earned_badges (progress_of e user) ⊆ earned_badges p' /\
    total_xp (progress_of e user) <= total_xp p'.
Proof.
  intros Hxp. eexists. split; [apply update_progress_lookup|].
  set (p := progress_of e user).
  destruct (passed sub) eqn:Hpass.
  - destruct (decide (challenge_id sub ∈ completed_challenges p)) as [Hin|Hnew].
    + unfold updated. rewrite Hpass, (bool_decide_eq_true_2 _ Hin). simpl.
      repeat split; (done || lia).
    + destruct (first_pass_record p sub today Hpass Hnew)
        as (q & -> & Hq & _ & _ & _ & Hdone & Hb & _).
      destruct (add_hints_fields (_check_badges q) (hints_used sub)) as (-> & _).
      destruct (check_badges_fields q) as (-> & _).
      rewrite completed_add_hints, check_badges_completed, earned_badges_add_hints.
      rewrite Hdone, Hq. repeat split.
      * intros x Hx. apply elem_of_app. now left.
      * intros x Hx. apply check_badges_keeps. now rewrite Hb.
      * lia.
  - unfold updated. rewrite Hpass. simpl. repeat split; (done || lia).
Qed.

End Recording.

(** ** More of the session registry *)

Section RegistryMore.
Context `{LearnDB} `{PyTime}.

Implicit Types (m : SessionManager) (s : Session) (sid sql now : string).

Lemma get_session_other m sid now other :
  other <> sid -> _sessions (get_session m sid now).1 !! other = _sessions m !! other.
Proof.
  intros Hne. unfold get_session.
  destruct (_sessions m !! sid) as [s|]; [|reflexivity].
  destruct (is_active s); [|reflexivity]. simpl. now apply lookup_insert_ne.
Qed.

Lemma insert_after_get_other m sid now other m' (x : Session) :
  other <> sid -> get_session m sid now = (m', Some x) ->
  forall y, (<[sid := y]> (_sessions m')) !! other = _sessions m !! other.
Proof.
  intros Hne Hget y. rewrite lookup_insert_ne by auto.
  rewrite <- (get_session_other m sid now other Hne). now rewrite Hget.
Qed.

(** X17. Sessions are isolated: looking up, querying, resetting, loading
    a preset into or deleting one session leaves the entry of every other
    session exactly as it was. *)
Theorem operations_leave_other_sessions m sid sql (preset : list string) now other :
  other <> sid ->
  _sessions (get_session m sid now).1 !! other = _sessions m !! other /\
  _sessions (execute_query m sid sql now).1 !! other = _sessions m !! other /\
  _sessions (reset_session m sid now).1 !! other = _sessions m !! other /\
  _sessions (load_preset m sid preset now).1 !! other = _sessions m !! other /\
  _sessions (delete_session m sid).1 !! other = _sessions m !! other.
Proof.
  intros Hne. split; [now apply get_session_other|].
  split; [|split; [|split]].
  - unfold execute_query.
    destruct (get_session m sid now) as [m' [x|]] eqn:Hget.
    + destruct (adapter_execute_query _ sql) as [a result]. simpl.
      now apply (insert_after_get_other m sid now other m' x).
    + rewrite <- (get_session_other m sid now other Hne). now rewrite Hget.
  - unfold reset_session.
    destruct (get_session m sid now) as [m' [x|]] eqn:Hget.
    + simpl. now apply (insert_after_get_other m sid now other m' x).
    + rewrite <- (get_session_other m sid now other Hne). now rewrite Hget.
  - unfold load_preset.
    destruct (get_session m sid now) as [m' [x|]] eqn:Hget.
    + destruct (execute_multi _ preset) as [a results]. simpl.
      now apply (insert_after_get_other m sid now other m' x).
    + rewrite <- (get_session_other m sid now other Hne). now rewrite Hget.
  - unfold delete_session. destruct (_sessions m !! sid); simpl; [|reflexivity].
    apply lookup_delete_ne. auto.
Qed.

(** X18. [create_session] files the session it returns under the new id:
    active, in sandbox mode, with an empty history and a fresh database,
    so that a query on it is answered by that database; every other entry
    stays. *)
Theorem create_session_registers m sid now :
  let m' := (create_session m sid now).1 in
  let session := (create_session m sid now).2 in
  _sessions m' !! sid = Some session /\
  session_manager.session_id session = sid /\
  is_active session = true /\
  current_mode session = "sandbox"%string /\
  query_history session = [] /\
  created_at session = now /\
  (forall other, other <> sid -> _sessions m' !! other = _sessions m !! other) /\
  (forall sql now',
     (execute_query m' sid sql now').2
     = (adapter_execute_query (new_adapter (db_path session) true) sql).2).
Proof.
  simpl. split; [apply lookup_insert_eq|]. do 5 (split; [reflexivity|]). split.
  - intros other Hne. apply lookup_insert_ne. auto.
  - intros sql now'. unfold execute_query. erewrite get_session_some;
      [|simpl; apply lookup_insert_eq|reflexivity].
    match goal with |- context [adapter_execute_query ?a sql] =>
      change a with (new_adapter (sessions_dir m +:+ "/" +:+ sid +:+ "/db.file") true) end.
    destruct (adapter_execute_query _ sql) as [a result]. reflexivity.
Qed.

(** X19. Creating a session under an id that is free and deleting it
    again gives back the registry as it was; the delete reports true. *)
Theorem create_then_delete m sid now :
  _sessions m !! sid = None ->
  delete_session (create_session m sid now).1 sid = (m, true).
Proof.
  intros Hfree. unfold delete_session, create_session. simpl.
  rewrite lookup_insert_eq. simpl. rewrite delete_insert_eq, delete_id by exact Hfree.
  destruct m. reflexivity.
Qed.

(** X20. [get_session] on a present session stamps the time of the call
    and hands back the session with an adapter attached, its id, history,
    mode and creation time untouched; asking again at the same instant
    changes nothing more. On an absent id it returns nothing and leaves
    the registry alone. *)
Theorem get_session_stamps m sid now :
  (forall s, _sessions m !! sid = Some s -> is_active s = true ->
     exists s',
       (get_session m sid now).2 = Some s' /\
       _sessions (get_session m sid now).1 !! sid = Some s' /\
       last_activity_at s' = now /\
       _adapter s' = Some (adapter_of s) /\
       session_manager.session_id s' = session_manager.session_id s /\
       query_history s' = query_history s /\
       current_mode s' = current_mode s /\
       created_at s' = created_at s /\
       get_session (get_session m sid now).1 sid now = get_session m sid now) /\
  (~ present m sid -> get_session m sid now = (m, None)).
Proof.
  split; [|apply get_session_none].
  intros s Hs Ha. rewrite (get_session_some _ _ _ _ Hs Ha). simpl.
  eexists. split; [reflexivity|]. split; [apply lookup_insert_eq|].
  do 6 (split; [reflexivity|]).
  erewrite get_session_some; [|simpl; apply lookup_insert_eq|exact Ha].
  simpl. rewrite insert_insert_eq. reflexivity.
Qed.


Lemma adapter_result_shape (a : LearnDBAdapter) sql :
  well_shaped (adapter_execute_query a sql).2.
Proof.
  unfold adapter_execute_query, well_shaped.
  destruct (handle_input (_db a) sql) as [db1 [e|response]]; simpl; [auto|].
  destruct (learndb_adapter.resp_success response); simpl; [|auto].
  destruct (read_pipe db1) as [db2 [e|pipe]]; simpl; [auto|].
  destruct (collect pipe [] []) as [rows0 columns0]. simpl. auto.
Qed.

(** X21. Whatever the engine answers, the result that [execute_query]
    returns has one of two shapes: a success carries its rows, their
    count as [row_count] and no error message; a failure (the engine's,
    an exception, or a session that is not found) carries no rows, no
    columns and a count of 0. *)
Theorem query_result_shape m sid sql now :
  well_shaped (execute_query m sid sql now).2.
Proof.
  unfold execute_query.
  destruct (get_session m sid now) as [m' [session|]].
  - pose proof (adapter_result_shape (adapter_of session) sql) as Hshape.
    destruct (adapter_execute_query (adapter_of session) sql) as [a result]. exact Hshape.
  - unfold well_shaped. simpl. auto.
Qed.

Lemma execute_multi_length (a : LearnDBAdapter) (sqls : list string) :
  length (execute_multi a sqls).2
  = length (List.filter (fun sql => negb (String.eqb (strip sql) EmptyString)) sqls).
Proof.
  revert a. induction sqls as [|sql sqls IH]; intros a; [reflexivity|]. simpl.
  destruct (negb (String.eqb (strip sql) EmptyString)); [|apply IH].
  destruct (adapter_execute_query a (strip sql)) as [a1 r].
  specialize (IH a1). destruct (execute_multi a1 sqls) as [a2 rs]. simpl in *. now rewrite IH.
Qed.

(** X22. [load_preset] on a present session answers one result for each
    statement that is not blank, and leaves the history empty: the
    statements of a preset are run on the adapter directly and are not
    recorded. On an absent id it answers the single not-found result. *)
Theorem load_preset_spec m sid (preset : list string) now :
  (forall s, _sessions m !! sid = Some s -> is_active s = true ->
     length (load_preset m sid preset now).2
       = length (List.filter (fun sql => negb (String.eqb (strip sql) EmptyString)) preset) /\
     history_of (load_preset m sid preset now).1 sid = Some []) /\
  (~ present m sid -> load_preset m sid preset now = (m, [not_found sid])).
Proof.
  split.
  - intros s Hs Ha. unfold load_preset. rewrite (get_session_some _ _ _ _ Hs Ha).
    pose proof (execute_multi_length (adapter_reset (adapter_of (stamp s now (adapter_of s))))
                  preset) as Hlen.
    destruct (execute_multi _ preset) as [a results]. simpl in *. split; [exact Hlen|].
    unfold history_of. simpl. now rewrite lookup_insert_eq.
  - intros Hno. unfold load_preset. now rewrite (get_session_none m sid now Hno).
Qed.

(** X23. The listing shows exactly the active entries: a summary is
    listed if and only if it is the summary of an entry that is active.
    A deleted session is therefore never listed. *)
Theorem list_sessions_spec m (summary : SessionSummary) :
  summary ∈ list_sessions m <->
  exists sid s, _sessions m !! sid = Some s /\ is_active s = true /\ summary = summary_of s.
Proof.
  unfold list_sessions. rewrite list_elem_of_fmap. split.
  - intros (s & -> & Hin). apply list_elem_of_In, filter_In in Hin as [Hin Ha].
    apply list_elem_of_In, list_elem_of_fmap in Hin as ([sid s'] & -> & Hin).
    apply elem_of_map_to_list in Hin. exists sid, s'. auto.
  - intros (sid & s & Hs & Ha & ->). exists s. split; [reflexivity|].
    apply list_elem_of_In, filter_In. split; [|exact Ha].
    apply list_elem_of_In, list_elem_of_fmap. exists (sid, s). split; [reflexivity|].
    now apply elem_of_map_to_list.
Qed.

Lemma fold_delete_lookup (ids : list string) m sid :
  _sessions (fold_left (fun m sid => (delete_session m sid).1) ids m) !! sid
  = if bool_decide (sid ∈ ids) then None else _sessions m !! sid.
Proof.
  revert m. induction ids as [|i ids IH]; intros m; simpl; [reflexivity|].
  rewrite IH. destruct (decide (sid = i)) as [->|Hne].
  - rewrite (bool_decide_eq_true_2 (i ∈ i :: ids)) by apply list_elem_of_here.
    rewrite delete_session_lookup. now destruct (bool_decide _).
  - rewrite delete_session_other by auto.
    destruct (decide (sid ∈ ids)) as [Hin|Hnin].
    + rewrite !bool_decide_eq_true_2; auto. now apply list_elem_of_further.
    + rewrite !bool_decide_eq_false_2; auto.
      intros Hin. apply elem_of_cons in Hin as [?|?]; contradiction.
Qed.

Lemma stale_ids_spec m now sid :
  sid ∈ stale_ids m now <->
  exists s, _sessions m !! sid = Some s /\
    older_than now (last_activity_at s) (max_session_age_hours m) = true.
Proof.
  unfold stale_ids. rewrite list_elem_of_fmap. split.
  - intros ([sid' s] & -> & Hin). apply list_elem_of_In, filter_In in Hin as [Hin Hold].
    apply list_elem_of_In, elem_of_map_to_list in Hin. exists s. auto.
  - intros (s & Hs & Hold). exists (sid, s). split; [reflexivity|].
    apply list_elem_of_In, filter_In. split; [|exact Hold].
    now apply list_elem_of_In, elem_of_map_to_list.
Qed.

Lemma stale_ids_NoDup m now : NoDup (stale_ids m now).
Proof.
  unfold stale_ids.
  assert (forall (l : list (string * Session)) f, NoDup l.*1 -> NoDup (List.filter f l).*1)
    as Hfilter.
  { intros l f. induction l as [|[k v] l IH]; [intros; constructor|].
    simpl. intros Hnd. apply NoDup_cons in Hnd as [Hk Hnd].
    destruct (f (k, v)); [|now apply IH]. simpl. apply NoDup_cons. split; [|now apply IH].
    intros Hin. apply Hk. apply list_elem_of_fmap in Hin as ([k' v'] & -> & Hin).
    apply list_elem_of_In, filter_In in Hin as [Hin _].
    apply list_elem_of_fmap. exists (k', v'). split; [reflexivity|]. now apply list_elem_of_In. }
  apply Hfilter, NoDup_fst_map_to_list.
Qed.

(** X24. The sweep removes the stale sessions and no other: afterwards an
    id has an entry exactly when it had one that was not stale, and that
    entry is unchanged; the number returned is the number of entries
    removed. *)
Theorem cleanup_stale_sessions_spec m now :
  let m' := (cleanup_stale_sessions m now).1 in
  (forall sid,
     _sessions m' !! sid
     = match _sessions m !! sid with
       | Some s =>
           if older_than now (last_activity_at s) (max_session_age_hours m)
           then None else Some s
       | None => None
       end) /\
  Z.of_nat (size (_sessions m)) = Z.of_nat (size (_sessions m')) + (cleanup_stale_sessions m now).2.
Proof.
  intros m'. subst m'. assert (forall sid,
     _sessions (cleanup_stale_sessions m now).1 !! sid
     = match _sessions m !! sid with
       | Some s =>
           if older_than now (last_activity_at s) (max_session_age_hours m)
           then None else Some s
       | None => None
       end) as Hlookup.
  { intros sid. unfold cleanup_stale_sessions. simpl. rewrite fold_delete_lookup.
    destruct (decide (sid ∈ stale_ids m now)) as [Hin|Hnin].
    - rewrite bool_decide_eq_true_2 by exact Hin.
      apply stale_ids_spec in Hin as (s & -> & ->). reflexivity.
    - rewrite bool_decide_eq_false_2 by exact Hnin.
      destruct (_sessions m !! sid) as [s|] eqn:Hs; [|reflexivity].
      destruct (older_than _ _ _) eqn:Hold; [|reflexivity].
      destruct Hnin. apply stale_ids_spec. eauto. }
  split; [exact Hlookup|].
  assert (_sessions (cleanup_stale_sessions m now).1
          = filter (fun kv : string * Session => kv.1 ∉ stale_ids m now) (_sessions m)) as ->.
  { apply map_eq. intros sid. rewrite Hlookup. symmetry.
    destruct (_sessions m !! sid) as [s|] eqn:Hs.
    - destruct (older_than _ _ _) eqn:Hold.
      + apply map_lookup_filter_None. right. intros s' Hs'. simpl.
        intros Hnin. apply Hnin, stale_ids_spec. exists s. split; auto.
      + apply map_lookup_filter_Some. split; [exact Hs|]. simpl.
        intros Hin. apply stale_ids_spec in Hin as (s' & Hs' & Hold'). congruence.
    - apply map_lookup_filter_None. now left. }
  unfold cleanup_stale_sessions, len. simpl.
  pose proof (map_size_disj_union
    (filter (fun kv : string * Session => kv.1 ∉ stale_ids m now) (_sessions m))
    (filter (fun kv : string * Session => ~ (kv.1 ∉ stale_ids m now)) (_sessions m))
    (map_disjoint_filter_complement _ _)) as Hsize.
  rewrite map_filter_union_complement in Hsize. rewrite Hsize.
  assert (size (filter (fun kv : string * Session => ~ (kv.1 ∉ stale_ids m now)) (_sessions m))
          = length (stale_ids m now)) as ->; [|lia].
  rewrite <- size_dom, <- (size_list_to_set (C := gset string)) by apply stale_ids_NoDup.
  f_equal. apply set_eq. intros sid.
  rewrite elem_of_dom, elem_of_list_to_set. split.
  - intros [s Hs]. apply map_lookup_filter_Some in Hs as [_ Hin]. simpl in Hin.
    destruct (decide (sid ∈ stale_ids m now)); [auto|contradiction].
  - intros Hin. destruct (proj1 (stale_ids_spec m now sid) Hin) as (s & Hs & _).
    exists s. apply map_lookup_filter_Some. split; [exact Hs|]. simpl. auto.
Qed.

End RegistryMore.

(** ** Setup, grading and the routes at their edges *)

Section GradingMore.
Context `{LearnDB} `{PyBuiltins}.

Implicit Types (e : ChallengeEngine) (c : Challenge) (m : SessionManager).
Implicit Types (sid sql now : string) (h : Z).

Lemma engine_eta e : mkEngine (session_manager e) (_user_progress e) = e.
Proof. now destruct e. Qed.

Lemma execute_query_absent m sid sql now :
  ~ present m sid -> execute_query m sid sql now = (m, not_found sid).
Proof. intros Hno. unfold execute_query. now rewrite (get_session_none m sid now Hno). Qed.

(** X25. Grading against a session that is not there fails cleanly: the
    submission comes back failed, with no reward, no output and the
    not-found text as feedback, and the engine is as it was. *)
Theorem validate_submission_absent_session e sid c sql h now :
  ~ present (session_manager e) sid ->
  validate_submission e sid c sql h now
  = (e, mkSubmission (id c) sid sql now false fzero h 0
          ("Query error: Session '" +:+ sid +:+ "' not found") None).
Proof.
  intros Hno. unfold validate_submission.
  rewrite (execute_query_absent _ sid sql now Hno). simpl. now rewrite engine_eta.
Qed.

Lemma validate_submission_manager e sid c sql h now :
  session_manager (validate_submission e sid c sql h now).1
  = (execute_query (session_manager e) sid sql now).1.
Proof.
  unfold validate_submission.
  destruct (execute_query _ sid sql now) as [m result]. simpl.
  destruct (negb (success result)); [reflexivity|].
  destruct (_validate_against_rules result _) as [p fb]. reflexivity.
Qed.

(** X26. A graded query is a query like any other for the history: with a
    cap of at least one, the submitted statement is its newest item after
    [validate_submission], flagged with the success of the execution (so
    a submission that passed left a successful item). *)
Theorem validate_submission_logged e sid c sql h now s :
  1 <= max_history_items (session_manager e) ->
  _sessions (session_manager e) !! sid = Some s -> is_active s = true ->
  exists item,
    history_of (session_manager (validate_submission e sid c sql h now).1) sid
      = Some (last_n (Z.to_nat (max_history_items (session_manager e)))
                (query_history s ++ [item])) /\
    hi_sql item = sql /\
    (passed (validate_submission e sid c sql h now).2 = true -> hi_success item = true).
Proof.
  intros Hcap Hs Ha. rewrite validate_submission_manager.
  destruct (execute_query_present (session_manager e) sid sql now s Hs Ha)
    as (item & s' & Hsql & Hsucc & _ & Hs' & _ & _ & _ & Hh).
  exists item. split; [|split; [exact Hsql|]].
  - unfold history_of. rewrite Hs'. simpl. rewrite Hh.
    now rewrite trimmed_positive by exact Hcap.
  - rewrite Hsucc. unfold validate_submission.
    destruct (execute_query _ sid sql now) as [m result]. simpl.
    destruct (success result); simpl; [reflexivity|discriminate].
Qed.

Lemma run_queries_app m sid (pre post : list string) now :
  run_queries m sid (pre ++ post) now = run_queries (run_queries m sid pre now) sid post now.
Proof. unfold run_queries. apply fold_left_app. Qed.

Lemma run_setup_all_succeed m sid (sqls : list string) now :
  Forall (fun r => success r = true) (results_of m sid sqls now) ->
  run_setup m sid sqls now
  = (run_queries m sid sqls now, (true, "Challenge setup complete"%string)).
Proof.
  revert m. induction sqls as [|sql sqls IH]; intros m Hall; [reflexivity|].
  simpl in *. destruct (execute_query m sid sql now) as [m' r].
  apply Forall_cons in Hall as [Hr Hall]. rewrite Hr. simpl. now apply IH.
Qed.

Lemma run_setup_first_failure m sid (pre post : list string) sql now :
  Forall (fun r => success r = true) (results_of m sid pre now) ->
  success (execute_query (run_queries m sid pre now) sid sql now).2 = false ->
  run_setup m sid (pre ++ sql :: post) now
  = (run_queries m sid (pre ++ [sql]) now,
     (false, "Setup failed: " +:+
        default "None"%string
          (error_message (execute_query (run_queries m sid pre now) sid sql now).2))).
Proof.
  revert m. induction pre as [|sql' pre IH]; intros m Hall Hfail.
  - simpl in *. destruct (execute_query m sid sql now) as [m' r]. simpl in *.
    now rewrite Hfail.
  - simpl in *. destruct (execute_query m sid sql' now) as [m' r].
    apply Forall_cons in Hall as [Hr Hall]. rewrite Hr. simpl. now apply IH.
Qed.

(** X27. Setup runs the statements in order on the reset session and
    stops at the first one that fails: the statements after it are never
    run, and the message carries the error of that statement. When every
    statement succeeds all of them have been run and setup reports
    completion. *)
Theorem setup_challenge_outcome e sid c now :
  let m0 := (reset_session (session_manager e) sid now).1 in
  (Forall (fun r => success r = true) (results_of m0 sid (setup_sql c) now) ->
     setup_challenge e sid c now
     = (mkEngine (run_queries m0 sid (setup_sql c) now) (_user_progress e),
        (true, "Challenge setup complete"%string))) /\
  (forall pre sql post,
     setup_sql c = pre ++ sql :: post ->
     Forall (fun r => success r = true) (results_of m0 sid pre now) ->
     success (execute_query (run_queries m0 sid pre now) sid sql now).2 = false ->
     setup_challenge e sid c now
     = (mkEngine (run_queries m0 sid (pre ++ [sql]) now) (_user_progress e),
        (false, "Setup failed: " +:+
           default "None"%string
             (error_message (execute_query (run_queries m0 sid pre now) sid sql now).2)))).
Proof.
  intros m0. unfold setup_challenge. subst m0.
  destruct (reset_session (session_manager e) sid now) as [m0 b]. simpl. split.
  - intros Hall. now rewrite (run_setup_all_succeed m0 sid _ now Hall).
  - intros pre sql post -> Hall Hfail.
    now rewrite (run_setup_first_failure m0 sid pre post sql now Hall Hfail).
Qed.

(** X28. Setup on a session that is not there changes nothing. With
    statements to run it reports the not-found failure of the first one;
    with none it reports completion, although there is no session. *)
Theorem setup_challenge_absent_session e sid c now :
  ~ present (session_manager e) sid ->
  setup_challenge e sid c now
  = (e, match setup_sql c with
        | [] => (true, "Challenge setup complete"%string)
        | _ :: _ => (false, "Setup failed: Session '" +:+ sid +:+ "' not found")
        end).
Proof.
  intros Hno. unfold setup_challenge, reset_session.
  rewrite (get_session_none _ sid now Hno).
  destruct (setup_sql c) as [|sql rest]; simpl.
  - now rewrite engine_eta.
  - rewrite (execute_query_absent _ sid sql now Hno). simpl. now rewrite engine_eta.
Qed.

(** X29. The hint route answers an index inside the list with the hint
    at that position and the number of hints after it, which is never
    negative and is 0 at the last hint; any other index is refused with
    error 400. *)
Theorem get_hint_spec (registry : gmap string Challenge) cid c (i : Z) :
  registry !! cid = Some c ->
  (0 <= i < len (hints c) ->
     exists text,
       hints c !! Z.to_nat i = Some text /\
       get_hint registry cid i = inr (mkHint i text (len (hints c) - i - 1)) /\
       0 <= len (hints c) - i - 1 /\
       (i = len (hints c) - 1 <-> len (hints c) - i - 1 = 0)) /\
  (i < 0 \/ len (hints c) <= i ->
     get_hint registry cid i = inl (mkHTTPException 400 "Invalid hint index")).
Proof.
  intros Hc. unfold get_hint. rewrite Hc. split.
  - intros [Hlo Hhi].
    replace (i <? 0) with false by (symmetry; apply Z.ltb_ge; lia).
    replace (i >=? len (hints c)) with false
      by (symmetry; rewrite Z.geb_leb; apply Z.leb_gt; lia).
    simpl. destruct (hints c !! Z.to_nat i) as [text|] eqn:Hi.
    + exists text. rewrite nth_lookup, Hi. simpl. repeat split; lia.
    + apply lookup_ge_None in Hi. unfold len in Hhi. lia.
  - intros [Hlo|Hhi].
    + replace (i <? 0) with true by (symmetry; apply Z.ltb_lt; lia). reflexivity.
    + replace (i >=? len (hints c)) with true by (symmetry; apply Z.geb_le; lia).
      now rewrite orb_true_r.
Qed.

Lemma run_setup_ok_registry m sid (sqls : list string) now :
  (run_setup m sid sqls now).2.1 = true ->
  (run_setup m sid sqls now).1 = run_queries m sid sqls now.
Proof.
  revert m. induction sqls as [|sql sqls IH]; intros m; [reflexivity|].
  simpl. destruct (execute_query m sid sql now) as [m' r].
  destruct (success r); simpl; [apply IH|discriminate].
Qed.

Lemma reset_session_present m sid now (s : Session) :
  _sessions m !! sid = Some s -> is_active s = true ->
  exists s0,
    _sessions (reset_session m sid now).1 !! sid = Some s0 /\
    is_active s0 = true /\ query_history s0 = [] /\
    max_history_items (reset_session m sid now).1 = max_history_items m.
Proof.
  intros Hs Ha. unfold reset_session. rewrite (get_session_some _ _ _ _ Hs Ha). simpl.
  eexists. split; [apply lookup_insert_eq|]. simpl. auto.
Qed.

(** X30. After a setup that succeeded, with a cap of N >= 1, the history
    of the session is made of the setup statements alone, the last N of
    them in the order run: what the history held before the setup is
    gone. *)
Theorem setup_challenge_history e sid c now (s : Session) :
  1 <= max_history_items (session_manager e) ->
  _sessions (session_manager e) !! sid = Some s -> is_active s = true ->
  (setup_challenge e sid c now).2.1 = true ->
  exists items,
    history_of (session_manager (setup_challenge e sid c now).1) sid = Some items /\
    hi_sql <$> items
      = last_n (Z.to_nat (max_history_items (session_manager e))) (setup_sql c).
Proof.
  intros Hcap Hs Ha. unfold setup_challenge.
  destruct (reset_session_present _ sid now s Hs Ha) as (s0 & Hs0 & Ha0 & Hh0 & Hcap0).
  destruct (reset_session (session_manager e) sid now) as [m0 b]. simpl in *.
  pose proof (run_setup_ok_registry m0 sid (setup_sql c) now) as Hreg.
  destruct (run_setup m0 sid (setup_sql c) now) as [m1 [ok msg]]. simpl in *.
  intros ->. rewrite (Hreg eq_refl). rewrite <- Hcap0.
  apply (run_queries_keeps_most_recent m0 sid _ now s0); auto. now rewrite Hcap0.
Qed.

End GradingMore.

(** ** The further properties at work on the small engine *)

Section MoreInstances.
Import Demo Demo2.

Lemma rows_equal_entry_order_witness :
  _rows_equal row_ab (toy_row 1) false = _rows_equal row_ba (toy_row 1) false /\
  _rows_equal (toy_row 1) row_ab false = _rows_equal (toy_row 1) row_ba false.
Proof.
  apply (rows_equal_entry_order row_ab row_ba (toy_row 1) false).
  - apply (bool_decide_unpack _). vm_compute. exact I.
  - unfold row_ab, row_ba. apply Permutation_swap.
Defined.

Lemma unordered_rules_ignore_row_order_witness :
  _check_rule (result_of_rows [toy_row 1; toy_row 2])
    (mkRule EXACT_MATCH [toy_row 2; toy_row 1] false false)
  = _check_rule (result_of_rows [toy_row 2; toy_row 1])
    (mkRule EXACT_MATCH [toy_row 2; toy_row 1] false false).
Proof.
  apply (unordered_rules_ignore_row_order (result_of_rows [toy_row 1; toy_row 2])
           (result_of_rows [toy_row 2; toy_row 1]) [toy_row 2; toy_row 1] false false).
  simpl. apply Permutation_swap.
Defined.

Lemma contains_rows_extra_rows_witness :
  passes (result_of_rows [toy_row 1; toy_row 2])
    (mkRule CONTAINS_ROWS [toy_row 1] false false) = true.
Proof.
  apply (contains_rows_extra_rows (result_of_rows [toy_row 1])
           (result_of_rows [toy_row 1; toy_row 2]) [toy_row 1] false false).
  - simpl. intros x Hx. apply list_elem_of_singleton in Hx as ->. apply list_elem_of_here.
  - vm_compute. reflexivity.
Defined.

Lemma level_functions_agree_witness :
  xp_required (get_level_info progress_250) <= total_xp progress_250.
Proof.
  apply (level_functions_agree progress_250). simpl. lia.
Defined.

Lemma calculate_level_monotone_witness : _calculate_level 250 <= _calculate_level 650.
Proof. apply (calculate_level_monotone 250 650). lia. Defined.

Lemma xp_to_next_level_spec_witness :
  0 < xp_to_next_level progress_250 /\
  _calculate_level (total_xp progress_250 + xp_to_next_level progress_250)
    = _calculate_level (total_xp progress_250) + 1 /\
  _calculate_level (total_xp progress_250 + xp_to_next_level progress_250 - 1)
    = _calculate_level (total_xp progress_250).
Proof. apply (xp_to_next_level_spec progress_250). simpl. lia. Defined.

Lemma update_progress_other_users_witness :
  _user_progress (update_progress engine_done "v" (pass_for "demo_001") "2024-01-02")
    !! "u"%string
  = _user_progress engine_done !! "u"%string.
Proof.
  apply (update_progress_other_users engine_done "v" (pass_for "demo_001") "2024-01-02" "u").
  discriminate.
Defined.


Lemma first_pass_accounting_witness :
  exists p',
    _user_progress (update_progress engine_done "u" (pass_for "demo_002") "2024-01-02")
      !! "u"%string = Some p' /\
    total_xp p' = total_xp (progress_of engine_done "u") + 10.
Proof.
  destruct (first_pass_accounting engine_done "u" (pass_for "demo_002") "2024-01-02")
    as (p' & Hp' & Hxp & _).
  - reflexivity.
  - apply (bool_decide_unpack _). vm_compute. exact I.
  - exists p'. auto.
Defined.

Lemma engine_done_ok : engine_ok engine_done.
Proof.
  intros user p Hp. unfold engine_done in Hp. simpl in Hp.
  apply lookup_singleton_Some in Hp as [_ <-].
  unfold progress_ok, progress_done. simpl.
  split; [apply NoDup_singleton|]. split; [apply NoDup_singleton|]. split; [lia|reflexivity].
Defined.

Lemma update_progress_keeps_records_ok_witness :
  engine_ok (update_progress engine_done "u" (pass_for "demo_002") "2024-01-02").
Proof.
  apply (update_progress_keeps_records_ok engine_done "u" (pass_for "demo_002") "2024-01-02").
  exact engine_done_ok.
Defined.

Lemma update_progress_monotone_witness :
  exists p',
    _user_progress (update_progress engine_done "u" (pass_for "demo_002") "2024-01-02")
      !! "u"%string = Some p' /\
    earned_badges (progress_of engine_done "u") ⊆ earned_badges p' /\
    total_xp (progress_of engine_done "u") <= total_xp p'.
Proof.
  destruct (update_progress_monotone engine_done "u" (pass_for "demo_002") "2024-01-02")
    as (p' & Hp' & _ & Hb & Hxp).
  - simpl. lia.
  - exists p'. auto.
Defined.

Lemma operations_leave_other_sessions_witness :
  _sessions (execute_query manager_two "s1" "insert" "t2").1 !! "s2"%string
    = _sessions manager_two !! "s2"%string /\
  _sessions (delete_session manager_two "s1").1 !! "s2"%string
    = _sessions manager_two !! "s2"%string.
Proof.
  destruct (operations_leave_other_sessions manager_two "s1" "insert" [] "t2" "s2")
    as (_ & Hexec & _ & _ & Hdel).
  - discriminate.
  - split; assumption.
Defined.

Lemma create_session_registers_witness :
  _sessions (create_session manager1 "s2" "t1").1 !! "s1"%string
  = _sessions manager1 !! "s1"%string.
Proof.
  apply (create_session_registers manager1 "s2" "t1"). discriminate.
Defined.

Lemma create_then_delete_witness :
  delete_session (create_session manager0 "s1" "t0").1 "s1" = (manager0, true).
Proof. apply (create_then_delete manager0 "s1" "t0"). vm_compute. reflexivity. Defined.

Lemma get_session_stamps_witness :
  exists s',
    (get_session manager1 "s1" "t5").2 = Some s' /\
    last_activity_at s' = "t5"%string /\
    created_at s' = "t0"%string.
Proof.
  destruct (proj1 (get_session_stamps manager1 "s1" "t5") session1)
    as (s' & Hget & _ & Hlast & _ & _ & _ & _ & Hcreated & _).
  - vm_compute. reflexivity.
  - reflexivity.
  - exists s'. auto.
Defined.

Lemma load_preset_spec_witness :
  length (load_preset manager1 "s1" ["insert"; "  "; "select"]%string "t5").2 = 2%nat /\
  history_of (load_preset manager1 "s1" ["insert"; "  "; "select"]%string "t5").1 "s1"
    = Some [].
Proof.
  destruct (proj1 (load_preset_spec manager1 "s1" ["insert"; "  "; "select"]%string "t5")
              session1) as [Hlen Hh].
  - vm_compute. reflexivity.
  - reflexivity.
  - split; [rewrite Hlen; vm_compute; reflexivity | exact Hh].
Defined.

Lemma validate_submission_absent_session_witness :
  validate_submission engine3 "s0" count3 "select" 1 "t4"
  = (engine3, mkSubmission "demo_001" "s0" "select" "t4" false fzero 1 0
                "Query error: Session 's0' not found" None).
Proof.
  apply (validate_submission_absent_session engine3 "s0" count3 "select" 1 "t4").
  apply not_present_None. vm_compute. reflexivity.
Defined.

Lemma validate_submission_logged_witness :
  exists item,
    history_of (session_manager (validate_submission engine1 "s1" count3 "select" 0 "t4").1) "s1"
      = Some (last_n 100 (query_history session1 ++ [item])) /\
    hi_sql item = "select"%string.
Proof.
  destruct (validate_submission_logged engine1 "s1" count3 "select" 0 "t4" session1)
    as (item & Hh & Hsql & _).
  - simpl. lia.
  - vm_compute. reflexivity.
  - reflexivity.
  - exists item. split; assumption.
Defined.

Lemma setup_challenge_outcome_witness :
  (setup_challenge engine3 "s1" broken_setup "t5").2
  = (false, "Setup failed: syntax error"%string) /\
  history_of (session_manager (setup_challenge engine3 "s1" broken_setup "t5").1) "s1"
    ≫= (fun items => Some (length items)) = Some 2%nat.
Proof.
  pose proof (proj2 (setup_challenge_outcome engine3 "s1" broken_setup "t5")
                ["insert"%string] "insrt"%string ["insert"%string]) as Hstop.
  rewrite Hstop.
  - vm_compute. split; reflexivity.
  - reflexivity.
  - vm_compute. repeat constructor.
  - vm_compute. reflexivity.
Defined.

Lemma setup_challenge_absent_session_witness :
  setup_challenge engine3 "s0" broken_setup "t5"
  = (engine3, (false, "Setup failed: Session 's0' not found"%string)).
Proof.
  apply (setup_challenge_absent_session engine3 "s0" broken_setup "t5").
  apply not_present_None. vm_compute. reflexivity.
Defined.

Lemma get_hint_spec_witness :
  get_hint catalogue "demo_003" 2 = inr (mkHint 2 "third" 0) /\
  get_hint catalogue "demo_003" 3 = inl (mkHTTPException 400 "Invalid hint index").
Proof.
  destruct (get_hint_spec catalogue "demo_003" hints3 2) as [Hin _];
    [vm_compute; reflexivity|].
  destruct (get_hint_spec catalogue "demo_003" hints3 3) as [_ Hout];
    [vm_compute; reflexivity|].
  split.
  - destruct Hin as (text & Htext & -> & _); [simpl; unfold len; simpl; lia|].
    vm_compute in Htext. injection Htext as <-. reflexivity.
  - apply Hout. right. unfold len. simpl. lia.
Defined.

Lemma setup_challenge_history_witness :
  exists items,
    history_of (session_manager (setup_challenge engine1 "s1" hints3 "t5").1) "s1"
      = Some items /\
    hi_sql <$> items = ["insert"; "insert"]%string.
Proof.
  destruct (setup_challenge_history engine1 "s1" hints3 "t5" session1)
    as (items & Hh & Hsql).
  - simpl. lia.
  - vm_compute. reflexivity.
  - reflexivity.
  - vm_compute. reflexivity.
  - exists items. split; [exact Hh|]. rewrite Hsql. vm_compute. reflexivity.
Defined.

(** The sweep on two sessions of which one is old: one is removed, the
    other is listed afterwards. *)
Example sweep_removes_old_session :
  (cleanup_stale_sessions manager_two "t9").2 = 1 /\
  sum_session_id <$> list_sessions (cleanup_stale_sessions manager_two "t9").1
    = ["s2"%string].
Proof. vm_compute. split; reflexivity. Qed.

(** The known looseness of the unordered exact match: the expected row
    repeated twice is accepted against two different rows. *)
Example exact_match_unordered_accepts_repeats :
  passes (result_of_rows [toy_row 1; toy_row 2])
    (mkRule EXACT_MATCH [toy_row 1; toy_row 1] false false) = true.
Proof. vm_compute. reflexivity. Qed.

End MoreInstances.
